(** * kluchikru/models.py: the domain model of a real-estate classifieds site

    A shallow embedding of [src/kluchikru/models.py] and the properties its
    specification states about it.  The file has three layers:

    - [PyDecimal]: the fragment of Python's [decimal] arithmetic that
      [Advertisement.formatted_price] exercises (comparison with an integer,
      division by a power of ten in the default context, the [.2f] format);
    - [Django]: the fragment of the framework the models rely on (keyword
      construction of an instance with field defaults, field cleaning with
      choices and validators, insertion with integrity checks, cascading
      deletion);
    - [Schema] and [Models]: the field declarations and the methods of the
      source file itself. *)

From stdpp Require Import gmap strings list fin_maps.
From Stdlib Require Import Ascii ZArith QArith Qabs Lia Lqa.

Close Scope Q_scope.
Open Scope Z_scope.

(** ** Results of fallible calls *)

(** The exceptions the modelled code can raise. *)
Inductive exn : Type :=
  | ValueError (msg : string)
  | TypeError
  | AttributeError
  | IntegrityError
  | DoesNotExist
  | ValidationError (codes : list string).

Inductive result (A : Type) : Type :=
  | Ok (a : A)
  | Raise (e : exn).
Arguments Ok {A} a.
Arguments Raise {A} e.

Definition is_ok {A} (r : result A) : bool :=
  match r with Ok _ => true | Raise _ => false end.

Definition bind {A B} (r : result A) (k : A -> result B) : result B :=
  match r with Ok a => k a | Raise e => Raise e end.

Notation "x <- r ;; k" := (bind r (fun x => k))
  (at level 100, r at next level, right associativity).

(** ** Python decimals *)

Module PyDecimal.

(** [decimal.Decimal] as the triple Python keeps: sign, non-negative
    coefficient, exponent.  The number is (-1)^sign * int * 10^exp.
    NaN and the infinities are left out: a [DecimalField] refuses them. *)
Record Dec : Type := mkDec { d_sign : bool; d_int : Z; d_exp : Z }.

(** [Decimal(n)] for a Python int [n]. *)
Definition of_int (n : Z) : Dec := mkDec (n <? 0) (Z.abs n) 0.

(** The default context: 28 significant digits, ROUND_HALF_EVEN. *)
Definition prec : Z := 28.

Definition signed_int (d : Dec) : Z :=
  if d_sign d then - d_int d else d_int d.

(** The number as a fraction [num / den] with [den] a power of ten. *)
Definition num (d : Dec) : Z := signed_int d * 10 ^ Z.max (d_exp d) 0.
Definition den (d : Dec) : Z := 10 ^ Z.max (- d_exp d) 0.

(** The rational a decimal denotes (used in statements only). *)
Definition value (d : Dec) : Q := Qmake (num d) (Z.to_pos (den d)).

(** [d >= n] for a Python int [n]: comparison is exact. *)
Definition ge_int (d : Dec) (n : Z) : bool := n * den d <=? num d.

(** [len(str(n))] for a positive [n]; the fuel is the bit length. *)
Fixpoint ndigits_fuel (fuel : nat) (n : Z) : Z :=
  match fuel with
  | O => 0
  | S f => if n <=? 0 then 0 else 1 + ndigits_fuel f (n / 10)
  end.

Definition ndigits (n : Z) : Z :=
  ndigits_fuel (S (Z.to_nat (Z.log2 n))) n.

(** [n / 10^k] rounded to the nearest integer, ties to the even one
    (ROUND_HALF_EVEN on a non-negative coefficient, [k] digits dropped). *)
Definition round_half_even (n k : Z) : Z :=
  let q := n / 10 ^ k in
  let r := n mod 10 ^ k in
  if (10 ^ k <? 2 * r) || ((2 * r =? 10 ^ k) && Z.odd q) then q + 1 else q.

(** [Decimal._fix]: a coefficient longer than the precision is rounded
    to [prec] digits. *)
Definition fix_prec (d : Dec) : Dec :=
  let k := ndigits (d_int d) - prec in
  if 0 <? k
  then mkDec (d_sign d) (round_half_even (d_int d) k) (d_exp d + k)
  else d.

(** [d / 10**k] for a Python int divisor that is a power of ten: the
    quotient is exact before the context rounds it.  Python also strips
    trailing zeros of an exact quotient towards the ideal exponent; that
    changes the representation, not the number, and is not modelled. *)
Definition truediv_pow10 (d : Dec) (k : Z) : Dec :=
  fix_prec (mkDec (d_sign d) (d_int d) (d_exp d - k)).

(** [Decimal._rescale(e, ROUND_HALF_EVEN)]: the same number at exponent
    [e], padded with zeros or rounded. *)
Definition rescale (d : Dec) (e : Z) : Dec :=
  if e <=? d_exp d
  then mkDec (d_sign d) (d_int d * 10 ^ (d_exp d - e)) e
  else mkDec (d_sign d) (round_half_even (d_int d) (e - d_exp d)) e.

(** [str(n)] for a non-negative int. *)
Definition digit (n : Z) : ascii := ascii_of_nat (48 + Z.to_nat n).

Fixpoint str_fuel (fuel : nat) (n : Z) (acc : string) : string :=
  match fuel with
  | O => acc
  | S f =>
      let acc' := String (digit (n mod 10)) acc in
      if n / 10 =? 0 then acc' else str_fuel f (n / 10) acc'
  end.

Definition str (n : Z) : string :=
  str_fuel (S (Z.to_nat (Z.log2 n))) n "".

(** A coefficient [q] at exponent -2 written in fixed point: integer
    part, the point, two fraction digits. *)
Definition render2 (q : Z) : string :=
  str (q / 100) +:+ "." +:+
  String (digit (q mod 100 / 10)) (String (digit (q mod 10)) "").

(** [format(d, ".2f")]. *)
Definition format_2f (d : Dec) : string :=
  let r := rescale d (-2) in
  (if d_sign r then "-" else "") +:+ render2 (d_int r).

(** *** Reading a printed number

    What a text denotes, said without the printer: these definitions are
    the reader's side and are used in statements only. *)

(** The value of a decimal digit character. *)
Definition digit_value (a : ascii) : option Z :=
  let n := Z.of_nat (nat_of_ascii a) in
  if (48 <=? n) && (n <=? 57) then Some (n - 48) else None.

(** The number a string of digits denotes, read on from [acc]. *)
Fixpoint digits_value (acc : Z) (s : string) : option Z :=
  match s with
  | EmptyString => Some acc
  | String a s' =>
      match digit_value a with
      | Some d => digits_value (10 * acc + d) s'
      | None => None
      end
  end.

(** An unsigned integer literal: at least one digit, and no zero in front
    of another digit. *)
Definition int_literal (s : string) : option Z :=
  match s with
  | EmptyString => None
  | String a rest =>
      if Ascii.eqb a "0" && negb (String.eqb rest "") then None
      else digits_value 0 s
  end.

(** The text before the first point and the text after it. *)
Fixpoint split_point (s : string) : option (string * string) :=
  match s with
  | EmptyString => None
  | String a rest =>
      if Ascii.eqb a "." then Some (EmptyString, rest)
      else
        match split_point rest with
        | Some (ip, fp) => Some (String a ip, fp)
        | None => None
        end
  end.

(** A fixed-point text with two decimals, read as a number of hundredths:
    an integer literal, the point, exactly two digits. *)
Definition read_hundredths (s : string) : option Z :=
  match split_point s with
  | Some (ip, fp) =>
      if Nat.eqb (String.length fp) 2 then
        match int_literal ip, digits_value 0 fp with
        | Some i, Some f => Some (100 * i + f)
        | _, _ => None
        end
      else None
  | None => None
  end.

(** "[s] is [x] written with two decimal places": [s] reads as a number of
    hundredths [q], [q/100] is within half a hundredth of [x], and when
    [x] lies exactly between two such numbers [q] is the even one. *)
Definition written_with_two_decimals (x : Q) (s : string) : Prop :=
  exists q : Z,
    read_hundredths s = Some q /\
    (Qabs ((q # 100) - x) <= 1 # 200)%Q /\
    ((Qabs ((q # 100) - x) == 1 # 200)%Q -> Z.even q = true).

End PyDecimal.


Import PyDecimal.

(** ** Python values and model instances *)

(** The values a model attribute or a keyword argument holds.  A related
    object is represented by its primary key, a timestamp by a number. *)
Inductive pyval : Type :=
  | PyNone
  | PyBool (b : bool)
  | PyInt (n : Z)
  | PyStr (s : string)
  | PyDec (d : Dec)
  | PyTime (t : Z).

(** Python's truth value of an object ([not email] in [create_user]). *)
Definition truthy (v : pyval) : bool :=
  match v with
  | PyNone => false
  | PyBool b => b
  | PyInt n => negb (n =? 0)
  | PyStr s => negb (String.eqb s "")
  | PyDec d => negb (d_int d =? 0)
  | PyTime _ => true
  end.

Definition dec_eqb (a b : Dec) : bool :=
  Bool.eqb (d_sign a) (d_sign b) && (d_int a =? d_int b) && (d_exp a =? d_exp b).

(** Equality of stored column values (used by UNIQUE constraints). *)
Definition pyval_eqb (a b : pyval) : bool :=
  match a, b with
  | PyNone, PyNone => true
  | PyBool x, PyBool y => Bool.eqb x y
  | PyInt x, PyInt y => x =? y
  | PyStr x, PyStr y => String.eqb x y
  | PyDec x, PyDec y => dec_eqb x y
  | PyTime x, PyTime y => x =? y
  | _, _ => false
  end.

(** [value in field.empty_values], the tuple (None, '', [], (), {}). *)
Definition is_empty_value (v : pyval) : bool :=
  match v with
  | PyNone => true
  | PyStr s => String.eqb s ""
  | _ => false
  end.

(** A keyword-argument dictionary, and the attribute dictionary of a model
    instance, keyed by field name. *)
Abbreviation kwargs := (gmap string pyval).
Abbreviation instance := (gmap string pyval).

(** [d.setdefault(k, v)]: an existing entry wins. *)
Definition setdefault (k : string) (v : pyval) (d : kwargs) : kwargs :=
  match d !! k with
  | Some _ => d
  | None => <[k := v]> d
  end.

(** ** The classes of models.py *)

Inductive Model : Type :=
  | User | Agency | Agent | PropertyType | Location | Category
  | Advertisement | Photo | Review | FavoriteAdvertisement
  | Notification | Statistics.

#[global] Instance Model_eq_dec : EqDecision Model.
Proof. solve_decision. Defined.

(** ** Field declarations *)

(** [on_delete] policies.  models.py uses CASCADE on every relation;
    DO_NOTHING is kept so that the collector below has a policy that does
    not propagate. *)
Inductive on_delete : Type := CASCADE | DO_NOTHING.

Inductive validator : Type :=
  | MinValueValidator (limit : Z)
  | MaxValueValidator (limit : Z)
  | MaxLengthValidator (limit : Z).

Inductive kind : Type :=
  | KAuto
  | KChar | KText | KEmail | KURL
  | KBoolean
  | KInteger | KPositiveInteger
  | KDecimal (max_digits decimal_places : Z)
  | KDateTime | KDate
  | KForeignKey (to : Model) (policy : on_delete) (one_to_one : bool).

Record field : Type := mkField {
  f_name : string;
  f_kind : kind;
  f_max_length : option Z;
  f_choices : option (list (string * string));
  f_default : option pyval;
  f_validators : list validator;
  f_unique : bool;
  f_auto_now_add : bool;
  f_null : bool;
  f_blank : bool
}.

Definition plain (k : kind) (n : string) : field :=
  mkField n k None None None [] false false false false.

Definition with_max_length (l : Z) (f : field) : field :=
  mkField (f_name f) (f_kind f) (Some l) (f_choices f) (f_default f)
    (f_validators f) (f_unique f) (f_auto_now_add f) (f_null f) (f_blank f).

Definition with_choices (cs : list (string * string)) (f : field) : field :=
  mkField (f_name f) (f_kind f) (f_max_length f) (Some cs) (f_default f)
    (f_validators f) (f_unique f) (f_auto_now_add f) (f_null f) (f_blank f).

Definition with_default (v : pyval) (f : field) : field :=
  mkField (f_name f) (f_kind f) (f_max_length f) (f_choices f) (Some v)
    (f_validators f) (f_unique f) (f_auto_now_add f) (f_null f) (f_blank f).

Definition with_validators (vs : list validator) (f : field) : field :=
  mkField (f_name f) (f_kind f) (f_max_length f) (f_choices f) (f_default f)
    vs (f_unique f) (f_auto_now_add f) (f_null f) (f_blank f).

Definition with_unique (f : field) : field :=
  mkField (f_name f) (f_kind f) (f_max_length f) (f_choices f) (f_default f)
    (f_validators f) true (f_auto_now_add f) (f_null f) (f_blank f).

Definition with_auto_now_add (f : field) : field :=
  mkField (f_name f) (f_kind f) (f_max_length f) (f_choices f) (f_default f)
    (f_validators f) (f_unique f) true (f_null f) (f_blank f).

Definition with_null_blank (f : field) : field :=
  mkField (f_name f) (f_kind f) (f_max_length f) (f_choices f) (f_default f)
    (f_validators f) (f_unique f) (f_auto_now_add f) true true.

(** The constructors as models.py writes them ([verbose_name] only labels
    the field in forms and is dropped). *)
Definition CharField (n : string) (max_length : Z) : field :=
  with_max_length max_length (plain KChar n).
Definition TextField (n : string) : field := plain KText n.
Definition EmailField (n : string) : field :=
  with_max_length 254 (plain KEmail n).
Definition URLField (n : string) : field :=
  with_max_length 200 (plain KURL n).
Definition BooleanField (n : string) (default : bool) : field :=
  with_default (PyBool default) (plain KBoolean n).
Definition IntegerField (n : string) : field := plain KInteger n.
Definition PositiveIntegerField (n : string) (default : Z) : field :=
  with_default (PyInt default) (plain KPositiveInteger n).
Definition DecimalField (n : string) (max_digits decimal_places : Z) : field :=
  plain (KDecimal max_digits decimal_places) n.
Definition DateTimeField (n : string) : field := plain KDateTime n.
Definition DateField (n : string) : field := plain KDate n.
Definition ForeignKey (n : string) (to : Model) (policy : on_delete) : field :=
  plain (KForeignKey to policy false) n.
Definition OneToOneField (n : string) (to : Model) (policy : on_delete) : field :=
  with_unique (plain (KForeignKey to policy true) n).

(** ** The schema declared by models.py *)

Module Schema.

Definition STATUS_CHOICES : list (string * string) :=
  [ ("draft", "Черновик");
    ("active", "Актуально");
    ("sold", "Продано");
    ("rented", "Арендовано") ].

Definition NOTIFICATION_TYPE_CHOICES : list (string * string) :=
  [ ("new_ad", "Новое объявление");
    ("ad_update", "Объявление обновлено");
    ("ad_sold", "Недвижимость продана");
    ("ad_rented", "Недвижимость арендована") ].

(** The fields of each class, in declaration order.  [User] starts with
    the three columns it inherits from AbstractBaseUser and
    PermissionsMixin; [settings.AUTH_USER_MODEL] is this [User]. *)
Definition fields (m : Model) : list field :=
  match m with
  | User =>
      [ CharField "password" 128;
        with_null_blank (DateTimeField "last_login");
        BooleanField "is_superuser" false;
        CharField "name" 100;
        CharField "surname" 100;
        CharField "patronymic" 100;
        CharField "phone_number" 15;
        with_unique (EmailField "email");
        with_auto_now_add (DateTimeField "date_joined");
        BooleanField "is_active" true;
        BooleanField "is_staff" false;
        BooleanField "is_agent" false ]
  | Agency =>
      [ with_auto_now_add (DateTimeField "created_at");
        CharField "name" 255;
        PositiveIntegerField "agent_count" 0;
        PositiveIntegerField "advertisement_count" 0 ]
  | Agent =>
      [ ForeignKey "agency" Agency CASCADE;
        OneToOneField "user" User CASCADE ]
  | PropertyType =>
      [ CharField "name" 100; TextField "description" ]
  | Location =>
      [ CharField "city" 100; CharField "district" 150;
        CharField "street" 150; CharField "house" 15 ]
  | Category =>
      [ CharField "name" 100; TextField "description";
        with_auto_now_add (DateTimeField "created_at") ]
  | Advertisement =>
      [ CharField "title" 200;
        TextField "description";
        DecimalField "price" 20 2;
        ForeignKey "user" User CASCADE;
        ForeignKey "property_type" PropertyType CASCADE;
        ForeignKey "location" Location CASCADE;
        ForeignKey "category" Category CASCADE;
        with_auto_now_add (DateTimeField "date_posted");
        with_default (PyStr "draft")
          (with_choices STATUS_CHOICES (CharField "status" 10)) ]
  | Photo =>
      [ ForeignKey "advertisement" Advertisement CASCADE;
        URLField "image_url";
        IntegerField "display_order" ]
  | Review =>
      [ ForeignKey "advertisement" Advertisement CASCADE;
        ForeignKey "user" User CASCADE;
        with_validators [MinValueValidator 0; MaxValueValidator 5]
          (IntegerField "rating");
        TextField "comment" ]
  | FavoriteAdvertisement =>
      [ ForeignKey "user" User CASCADE;
        ForeignKey "advertisement" Advertisement CASCADE ]
  | Notification =>
      [ ForeignKey "user" User CASCADE;
        ForeignKey "advertisement" Advertisement CASCADE;
        CharField "notification_type" 50;
        with_auto_now_add (DateTimeField "created_at");
        CharField "status" 50;
        TextField "message" ]
  | Statistics =>
      [ DateField "date";
        IntegerField "user_count";
        IntegerField "advertisement_count" ]
  end.

End Schema.

(** ** The framework: construction, cleaning, storage *)

Module Django.

Import Schema.

(** Every model gets the automatic primary key [id]. *)
Definition id_field : field := plain KAuto "id".

Definition all_fields (m : Model) : list field := id_field :: fields m.

Definition field_names (m : Model) : list string := map f_name (all_fields m).

(** [Model._meta.get_field(name)]. *)
Definition get_field (m : Model) (n : string) : option field :=
  List.find (fun f => String.eqb (f_name f) n) (all_fields m).

Definition empty_strings_allowed (k : kind) : bool :=
  match k with
  | KChar | KText | KEmail | KURL => true
  | _ => false
  end.

(** [Field.get_default()]: the declared default, else the empty string for
    a text column that is not nullable, else None. *)
Definition get_default (f : field) : pyval :=
  match f_default f with
  | Some v => v
  | None =>
      if empty_strings_allowed (f_kind f) && negb (f_null f)
      then PyStr "" else PyNone
  end.

(** [f(k=v, **extra)]: Python refuses a keyword given twice. *)
Definition call_with (k : string) (v : pyval) (extra : kwargs) : result kwargs :=
  match extra !! k with
  | Some _ => Raise TypeError
  | None => Ok (<[k := v]> extra)
  end.

(** [Model.__init__] called with keyword arguments: a keyword that names no field is a
    TypeError; each field takes its keyword or its default. *)
Definition model_init (m : Model) (kw : kwargs) : result instance :=
  if forallb (fun kv => bool_decide (fst kv ∈ field_names m)) (map_to_list kw)
  then Ok (foldr (fun f inst =>
                    <[f_name f := default (get_default f) (kw !! f_name f)]> inst)
                 ∅ (all_fields m))
  else Raise TypeError.

(** *** Cleaning a field value *)

(** [len(s)].  A Python string is a sequence of code points; the strings
    here hold its UTF-8 encoding, in which every code point has exactly
    one byte that is not a continuation byte (10xxxxxx). *)
Definition is_continuation (a : ascii) : bool :=
  let n := Z.of_nat (nat_of_ascii a) in (128 <=? n) && (n <? 192).

Fixpoint py_len (s : string) : Z :=
  match s with
  | EmptyString => 0
  | String a s' => (if is_continuation a then 0 else 1) + py_len s'
  end.

(** A numeric value as a fraction, for the comparisons of the value
    validators; None when Python cannot order the value against an int. *)
Definition as_fraction (x : pyval) : option (Z * Z) :=
  match x with
  | PyInt n => Some (n, 1)
  | PyBool b => Some (if b then 1 else 0, 1)
  | PyDec d => Some (num d, den d)
  | _ => None
  end.

(** One validator call: the error codes it raises as ValidationError
    (none when the value passes); a TypeError when the comparison itself
    is not defined for the value. *)
Definition run_validator (v : validator) (x : pyval) : result (list string) :=
  match v with
  | MinValueValidator limit =>
      match as_fraction x with
      | Some (n, d) => Ok (if n <? limit * d then ["min_value"] else [])
      | None => Raise TypeError
      end
  | MaxValueValidator limit =>
      match as_fraction x with
      | Some (n, d) => Ok (if limit * d <? n then ["max_value"] else [])
      | None => Raise TypeError
      end
  | MaxLengthValidator limit =>
      match x with
      | PyStr s => Ok (if limit <? py_len s then ["max_length"] else [])
      | _ => Raise TypeError
      end
  end.

(** [Field.validators]: the declared ones, then the length limit a
    [max_length] adds.  (The syntax checks of EmailField and URLField, the
    digit check of DecimalField and the backend's integer range are not
    modelled; no field cleaned below has them, the range apart, which the
    declared bounds of [rating] replace.) *)
Definition field_validators (f : field) : list validator :=
  f_validators f ++
  match f_max_length f with
  | Some l => [MaxLengthValidator l]
  | None => []
  end.

Fixpoint collect_errors (vs : list validator) (x : pyval) : result (list string) :=
  match vs with
  | [] => Ok []
  | v :: vs' =>
      match run_validator v x with
      | Raise e => Raise e
      | Ok errs =>
          match collect_errors vs' x with
          | Raise e => Raise e
          | Ok errs' => Ok (errs ++ errs')
          end
      end
  end.

(** [Field.run_validators(value)]. *)
Definition run_validators (f : field) (x : pyval) : result unit :=
  if is_empty_value x then Ok tt
  else
    match collect_errors (field_validators f) x with
    | Raise e => Raise e
    | Ok [] => Ok tt
    | Ok errs => Raise (ValidationError errs)
    end.

(** [value == option_key] for the string keys of a choices list. *)
Definition is_choice (x : pyval) (cs : list (string * string)) : bool :=
  match x with
  | PyStr s => existsb (fun c => String.eqb s (fst c)) cs
  | _ => false
  end.

(** [Field.validate(value, instance)]. *)
Definition validate (f : field) (x : pyval) : result unit :=
  let tail :=
    match x with
    | PyNone => if f_null f then
                  (if f_blank f then Ok tt else Raise (ValidationError ["blank"]))
                else Raise (ValidationError ["null"])
    | _ => if negb (f_blank f) && is_empty_value x
           then Raise (ValidationError ["blank"]) else Ok tt
    end in
  match f_choices f with
  | Some cs =>
      if negb (is_empty_value x) then
        if is_choice x cs then Ok tt
        else Raise (ValidationError ["invalid_choice"])
      else tail
  | None => tail
  end.

(** [Field.clean(value, instance)] after [to_python]: for a value that
    already has the field's Python type [to_python] returns it unchanged,
    and the argument here is that value. *)
Definition clean (f : field) (x : pyval) : result pyval :=
  _ <- validate f x ;;
  _ <- run_validators f x ;;
  Ok x.

(** [Model._meta.get_field(name).clean(value, instance)]. *)
Definition clean_field (m : Model) (n : string) (x : pyval) : result pyval :=
  match get_field m n with
  | Some f => clean f x
  | None => Raise DoesNotExist
  end.

(** *** Storage *)

(** A stored row: its model, its primary key, its column values. *)
Record row : Type := mkRow { r_model : Model; r_pk : Z; r_data : instance }.

(** The database: the rows of all tables and the primary-key sequences of
    the tables that have issued a key. *)
Record DB : Type := mkDB { rows : list row; sequences : list (Model * Z) }.

Definition empty_db : DB := mkDB [] [].

(** The next key of a table's sequence; a sequence starts at 1. *)
Definition next_pk (db : DB) (m : Model) : Z :=
  match List.find (fun e => bool_decide (fst e = m)) (sequences db) with
  | Some e => snd e
  | None => 1
  end.

Definition row_key (r : row) : Model * Z := (r_model r, r_pk r).

Definition is_row (m : Model) (pk : Z) (r : row) : bool :=
  bool_decide (row_key r = (m, pk)).

Definition has_row (rs : list row) (m : Model) (pk : Z) : bool :=
  existsb (is_row m pk) rs.

(** NOT NULL. *)
Definition not_null_ok (f : field) (inst : instance) : bool :=
  f_null f ||
  match inst !! f_name f with
  | None | Some PyNone => false
  | Some _ => true
  end.

(** FOREIGN KEY: the referenced row exists. *)
Definition fk_ok (rs : list row) (f : field) (inst : instance) : bool :=
  match f_kind f with
  | KForeignKey to _ _ =>
      match inst !! f_name f with
      | Some (PyInt pk) => has_row rs to pk
      | Some PyNone => f_null f
      | _ => false
      end
  | _ => true
  end.

(** UNIQUE: no other row of the table holds the same value. *)
Definition unique_ok (rs : list row) (m : Model) (pk : Z) (f : field)
    (inst : instance) : bool :=
  negb (f_unique f) ||
  match inst !! f_name f with
  | Some v =>
      negb (existsb (fun r =>
                       bool_decide (r_model r = m) && negb (r_pk r =? pk) &&
                       match r_data r !! f_name f with
                       | Some w => pyval_eqb v w
                       | None => false
                       end) rs)
  | None => true
  end.

(** The integrity checks the storage engine runs on a written row.  (The
    conversion of a value to its column type is not modelled.) *)
Definition constraints_ok (rs : list row) (m : Model) (pk : Z)
    (inst : instance) : bool :=
  forallb (fun f => not_null_ok f inst && fk_ok rs f inst &&
                    unique_ok rs m pk f inst) (fields m).

(** [pre_save] on insertion: an [auto_now_add] column takes the time. *)
Definition pre_save_add (now : Z) (m : Model) (inst : instance) : instance :=
  foldr (fun f i => if f_auto_now_add f then <[f_name f := PyTime now]> i else i)
        inst (fields m).

(** The sequence of [m] moves past a key that was written. *)
Definition advance (m : Model) (v : Z) (db : DB) : list (Model * Z) :=
  (m, Z.max (next_pk db m) v)
    :: List.filter (fun e => negb (bool_decide (fst e = m))) (sequences db).

Definition insert_row (m : Model) (pk : Z) (inst : instance) (db : DB)
    : result instance * DB :=
  if negb (has_row (rows db) m pk) && constraints_ok (rows db) m pk inst
  then (Ok inst,
        mkDB (rows db ++ [mkRow m pk inst]) (advance m (pk + 1) db))
  else (Raise IntegrityError, db).

Definition update_row (m : Model) (pk : Z) (inst : instance) (db : DB)
    : result instance * DB :=
  if constraints_ok (rows db) m pk inst
  then (Ok inst,
        mkDB (map (fun r => if is_row m pk r then mkRow m pk inst else r)
                  (rows db))
             (sequences db))
  else (Raise IntegrityError, db).

(** [Model.save()] at time [now].  An instance without a key is inserted
    under the next key of its table; one whose key is stored is updated;
    one with a key that is not stored is inserted under that key.  A
    refused write leaves the database as it was.  (A key that is neither
    None nor an int is not modelled and reported as TypeError.) *)
Definition save (now : Z) (m : Model) (inst : instance) (db : DB)
    : result instance * DB :=
  match default PyNone (inst !! "id") with
  | PyNone =>
      let pk := next_pk db m in
      insert_row m pk (<["id" := PyInt pk]> (pre_save_add now m inst)) db
  | PyInt pk =>
      if has_row (rows db) m pk
      then update_row m pk inst db
      else insert_row m pk (pre_save_add now m inst) db
  | _ => (Raise TypeError, db)
  end.

(** [Model.save(force_insert=True)]: the row is inserted whether or not
    the instance has a key, so a key that is stored already is refused. *)
Definition save_insert (now : Z) (m : Model) (inst : instance) (db : DB)
    : result instance * DB :=
  match default PyNone (inst !! "id") with
  | PyNone =>
      let pk := next_pk db m in
      insert_row m pk (<["id" := PyInt pk]> (pre_save_add now m inst)) db
  | PyInt pk => insert_row m pk (pre_save_add now m inst) db
  | _ => (Raise TypeError, db)
  end.

(** [Model.objects.create] with keyword arguments: construct, then save
    with [force_insert=True]. *)
Definition create (now : Z) (m : Model) (kw : kwargs) (db : DB)
    : result instance * DB :=
  match model_init m kw with
  | Ok inst => save_insert now m inst db
  | Raise e => (Raise e, db)
  end.

(** A column keeps the caller's value through [save] unless it is the key
    or the table stamps it on insertion. *)
Definition caller_set (m : Model) (k : string) : bool :=
  negb (String.eqb k "id") &&
  forallb (fun f => negb (f_auto_now_add f && String.eqb (f_name f) k)) (fields m).

(** *** Deletion *)

(** A row is collected with the doomed set when one of its relations
    declared CASCADE points at a doomed key. *)
Definition cascades_to (doomed : list (Model * Z)) (r : row) : bool :=
  existsb (fun f =>
             match f_kind f with
             | KForeignKey to CASCADE _ =>
                 match r_data r !! f_name f with
                 | Some (PyInt pk) => bool_decide ((to, pk) ∈ doomed)
                 | _ => false
                 end
             | _ => false
             end) (fields (r_model r)).

(** The collector: rows that cascade to the doomed set join it, round
    after round, until a round collects nothing.  Each round that goes on
    removes a row from [rest], so [length rest] rounds are enough. *)
Fixpoint collect (fuel : nat) (doomed : list (Model * Z)) (rest : list row)
    : list (Model * Z) * list row :=
  match fuel with
  | O => (doomed, rest)
  | S n =>
      match List.filter (cascades_to doomed) rest with
      | [] => (doomed, rest)
      | hit =>
          collect n (doomed ++ map row_key hit)
                  (List.filter (fun r => negb (cascades_to doomed r)) rest)
      end
  end.

(** [instance.delete()] for the row [(m, pk)]: the row and everything the
    collector gathers are removed. *)
Definition delete (m : Model) (pk : Z) (db : DB) : DB :=
  let rest := List.filter (fun r => negb (is_row m pk r)) (rows db) in
  mkDB (snd (collect (length rest) [(m, pk)] rest)) (sequences db).

(** *** Operations and reachable states *)

Inductive op : Type :=
  | OpSave (now : Z) (m : Model) (inst : instance)
  | OpCreate (now : Z) (m : Model) (kw : kwargs)
  | OpDelete (m : Model) (pk : Z).

Definition step (db : DB) (o : op) : DB :=
  match o with
  | OpSave now m inst => snd (save now m inst db)
  | OpCreate now m kw => snd (create now m kw db)
  | OpDelete m pk => delete m pk db
  end.

Definition run (ops : list op) (db : DB) : DB := foldl step db ops.

(** The states the operations can produce from the empty database. *)
Inductive reachable : DB -> Prop :=
  | reachable_empty : reachable empty_db
  | reachable_step db o : reachable db -> reachable (step db o).

(** Referential integrity: every relation of every stored row passes the
    FOREIGN KEY check against the rows stored. *)
Definition no_dangling (rs : list row) : Prop :=
  forall r f, In r rs -> In f (fields (r_model r)) -> fk_ok rs f (r_data r) = true.

End Django.

(** ** The methods of models.py *)

Module Models.

Import Schema Django.

Section UserManager.

(** What the manager delegates to the framework and does not define:
    the string rewriting of [BaseUserManager.normalize_email] (strip, then
    lower-case the part after the last at-sign), and the password hasher's
    [encode(password, salt)]. *)
Variable normalize : string -> string.
Variable encode : string -> string -> string.

(** [BaseUserManager.normalize_email(email)]: a false value becomes the
    empty string; anything else must be a string. *)
Definition normalize_email (email : pyval) : result pyval :=
  if negb (truthy email) then Ok (PyStr "")
  else
    match email with
    | PyStr s => Ok (PyStr (normalize s))
    | _ => Raise AttributeError
    end.

(** [make_password(raw)]: None gives an unusable password, the marker "!"
    followed by random characters; a string is encoded with a random salt.
    [salt] is the random string drawn by the call. *)
Definition make_password (salt : string) (raw : pyval) : result string :=
  match raw with
  | PyNone => Ok ("!" +:+ salt)
  | PyStr s => Ok (encode s salt)
  | _ => Raise TypeError
  end.

(** [user.set_password(raw)].  (The transient attribute [_password], which
    [save] resets, is not modelled.) *)
Definition set_password (salt : string) (user : instance) (raw : pyval)
    : result instance :=
  h <- make_password salt raw ;;
  Ok (<["password" := PyStr h]> user).

(** The body of [UserManager.create_user(email, password, **extra_fields)],
    run at time [now] with the random string [salt], on the values the
    call has bound to its parameters ([bind_arguments] below: the extra
    fields of a call never name [email] or [password]). *)
Definition create_user (salt : string) (now : Z) (email password : pyval)
    (extra_fields : kwargs) (db : DB) : result instance * DB :=
  if negb (truthy email) then (Raise (ValueError "Email is required"), db)
  else
    match (email' <- normalize_email email ;;
           kw <- call_with "email" email' extra_fields ;;
           user <- model_init User kw ;;
           set_password salt user password) with
    | Ok user => save now User user db
    | Raise e => (Raise e, db)
    end.

(** [UserManager.create_superuser(email, password, **extra_fields)]. *)
Definition create_superuser (salt : string) (now : Z) (email password : pyval)
    (extra_fields : kwargs) (db : DB) : result instance * DB :=
  let extra_fields := setdefault "is_staff" (PyBool true) extra_fields in
  let extra_fields := setdefault "is_superuser" (PyBool true) extra_fields in
  create_user salt now email password extra_fields db.

(** Binding a call with positional arguments [args] and keywords [kw] to
    the signature
    [(self, email, password=None, **extra_fields)] that both methods of
    the manager have.  Positional arguments fill [email], then [password];
    a keyword of either name fills its parameter when no positional
    argument did, and is a TypeError when one did; a call without an
    e-mail or with a third positional argument is a TypeError; a password
    that is not given is None; the other keywords are the extra fields. *)
Definition bind_arguments (args : list pyval) (kw : kwargs)
    : result (pyval * pyval * kwargs) :=
  let extra := base.delete "email" (base.delete "password" kw) in
  match args with
  | [] =>
      match kw !! "email" with
      | Some email => Ok (email, default PyNone (kw !! "password"), extra)
      | None => Raise TypeError
      end
  | [email] =>
      match kw !! "email" with
      | Some _ => Raise TypeError
      | None => Ok (email, default PyNone (kw !! "password"), extra)
      end
  | [email; password] =>
      match kw !! "email", kw !! "password" with
      | None, None => Ok (email, password, extra)
      | _, _ => Raise TypeError
      end
  | _ => Raise TypeError
  end.

(** A call of [User.objects.create_user] with positional arguments [args]
    and keywords [kw]: bind, then run the body. *)
Definition call_create_user (salt : string) (now : Z) (args : list pyval)
    (kw : kwargs) (db : DB) : result instance * DB :=
  match bind_arguments args kw with
  | Ok (email, password, extra_fields) =>
      create_user salt now email password extra_fields db
  | Raise e => (Raise e, db)
  end.

End UserManager.

(** [Advertisement.formatted_price], on the value of the [price] column. *)
Definition formatted_price (price : Dec) : string :=
  if ge_int price 1000000 then
    format_2f (truediv_pow10 price 6) +:+ " млн"
  else if ge_int price 1000 then
    format_2f (truediv_pow10 price 3) +:+ " тыс"
  else
    format_2f price +:+ " руб.".

End Models.


(** ** Sample data *)

Module Sample.

Import Schema Django Models.

(** A stand-in hasher: tag, salt and password joined by dollar signs. *)
Definition encode (password salt : string) : string :=
  "plain$" +:+ salt +:+ "$" +:+ password.

Definition normalize (s : string) : string := s.

Definition ann : kwargs := <["name" := PyStr "Ann"]> ∅.

(** One user, one property type, one location, one category. *)
Definition base_ops : list op :=
  [ OpCreate 10 User
      (<["email" := PyStr "ann@example.org"]>
         (<["password" := PyStr "plain$s$pw"]> ann));
    OpCreate 11 PropertyType
      (<["name" := PyStr "flat"]> (<["description" := PyStr "a flat"]> ∅));
    OpCreate 12 Location
      (<["city" := PyStr "Omsk"]> (<["district" := PyStr "north"]>
         (<["street" := PyStr "Mira"]> (<["house" := PyStr "1"]> ∅))));
    OpCreate 13 Category
      (<["name" := PyStr "sale"]> (<["description" := PyStr "for sale"]> ∅)) ].

Definition base_db : DB := run base_ops empty_db.

Definition ad_kwargs : kwargs :=
  <["title" := PyStr "Two rooms"]>
    (<["description" := PyStr "sunny"]>
       (<["price" := PyDec (mkDec false 234000000 (-2))]>
          (<["user" := PyInt 1]>
             (<["property_type" := PyInt 1]>
                (<["location" := PyInt 1]>
                   (<["category" := PyInt 1]> ∅)))))).

(** The base rows, one advertisement, a photo and a review of it. *)
Definition listing_ops : list op :=
  base_ops ++
  [ OpCreate 20 Advertisement ad_kwargs;
    OpCreate 21 Photo
      (<["advertisement" := PyInt 1]>
         (<["image_url" := PyStr "http://example.org/1.png"]>
            (<["display_order" := PyInt 0]> ∅)));
    OpCreate 22 Review
      (<["advertisement" := PyInt 1]>
         (<["user" := PyInt 1]>
            (<["rating" := PyInt 5]> (<["comment" := PyStr "fine"]> ∅)))) ].

Definition listing_db : DB := run listing_ops empty_db.

Definition notification_kwargs : kwargs :=
  <["user" := PyInt 1]>
    (<["advertisement" := PyInt 1]>
       (<["notification_type" := PyStr "spam"]>
          (<["status" := PyStr "new"]> (<["message" := PyStr "hello"]> ∅)))).

End Sample.

(** ** Consistency of a database *)

Module Consistency.

Import Schema Django.

(** No two stored rows share a table and a primary key. *)
Definition keys_unique (rs : list row) : Prop := List.NoDup (map row_key rs).

(** Every table's sequence is past the keys stored in the table. *)
Definition sequences_ahead (db : DB) : Prop :=
  forall r, In r (rows db) -> r_pk r < next_pk db (r_model r).

(** UNIQUE columns: two rows of a table that agree on one are the same
    record. *)
Definition unique_values (rs : list row) : Prop :=
  forall r1 r2 f v,
    In r1 rs -> In r2 rs -> r_model r1 = r_model r2 ->
    In f (fields (r_model r1)) -> f_unique f = true ->
    r_data r1 !! f_name f = Some v -> r_data r2 !! f_name f = Some v ->
    r_pk r1 = r_pk r2.

End Consistency.

(** ** The relation graph of the schema *)

Module Relations.

Import Schema Django.

Definition all_models : list Model :=
  [ User; Agency; Agent; PropertyType; Location; Category; Advertisement;
    Photo; Review; FavoriteAdvertisement; Notification; Statistics ].

(** Class [m'] declares a relation to class [m]. *)
Definition refers_to_model (m m' : Model) : bool :=
  existsb (fun f => match f_kind f with
                    | KForeignKey to _ _ => bool_decide (to = m)
                    | _ => false
                    end) (fields m').

(** Some class declares a relation to [m]. *)
Definition is_referenced (m : Model) : bool :=
  existsb (refers_to_model m) all_models.

(** [m] declares a relation. *)
Definition has_relation (m : Model) : bool :=
  existsb (fun f => match f_kind f with
                    | KForeignKey _ _ _ => true
                    | _ => false
                    end) (fields m).

(** The classes that refer to [m] are referred to by none. *)
Definition referrers_are_leaves (m : Model) : bool :=
  forallb (fun m' => negb (refers_to_model m m') || negb (is_referenced m'))
          all_models.

(** The table an operation is run on. *)
Definition op_model (o : op) : Model :=
  match o with
  | OpSave _ m _ | OpCreate _ m _ | OpDelete m _ => m
  end.

End Relations.

(** ** A larger sample *)

Module Scenario.

Import Schema Django.

(** The [i]-th stored row. *)
Definition row_at (i : nat) (db : DB) : row := nth i (rows db) (mkRow User 0 ∅).

Definition advertisement_of (owner : Z) : kwargs :=
  <["user" := PyInt owner]> Sample.ad_kwargs.

Definition photo_of (ad : Z) : kwargs :=
  <["advertisement" := PyInt ad]>
    (<["image_url" := PyStr "http://example.org/p.png"]>
       (<["display_order" := PyInt 0]> ∅)).

Definition favorite_kwargs : kwargs :=
  <["user" := PyInt 2]> (<["advertisement" := PyInt 1]> ∅).

(** Two users with one advertisement and one photo each, a favourite, an
    agency and an agent.  Rows, in order: User 1, PropertyType 1,
    Location 1, Category 1, User 2, Advertisement 1 (of user 1),
    Advertisement 2 (of user 2), Photo 1, Photo 2, FavoriteAdvertisement 1,
    Agency 1, Agent 1 (user 1). *)
Definition market_ops : list op :=
  Sample.base_ops ++
  [ OpCreate 14 User
      (<["email" := PyStr "bob@example.org"]>
         (<["password" := PyStr "plain$s$pw"]> ∅));
    OpCreate 20 Advertisement (advertisement_of 1);
    OpCreate 21 Advertisement (advertisement_of 2);
    OpCreate 22 Photo (photo_of 1);
    OpCreate 23 Photo (photo_of 2);
    OpCreate 24 FavoriteAdvertisement favorite_kwargs;
    OpCreate 25 Agency (<["name" := PyStr "Keys"]> ∅);
    OpCreate 26 Agent (<["agency" := PyInt 1]> (<["user" := PyInt 1]> ∅)) ].

Definition market_db : DB := run market_ops empty_db.

(** An advertisement without its price. *)
Definition unpriced_kwargs : kwargs := base.delete "price" Sample.ad_kwargs.

End Scenario.

(** * Properties *)

Import PyDecimal Schema Django Models.

(** ** Dictionaries and construction *)

Section Construction.

Lemma setdefault_lookup (k : string) (v : pyval) (d : kwargs) :
  setdefault k v d !! k = Some (default v (d !! k)).
Proof.
  unfold setdefault. destruct (d !! k) as [w|] eqn:E; simpl.
  - exact E.
  - apply lookup_insert_eq.
Qed.

Lemma setdefault_lookup_ne (k k' : string) (v : pyval) (d : kwargs) :
  k <> k' -> setdefault k v d !! k' = d !! k'.
Proof.
  intros Hne. unfold setdefault. destruct (d !! k); [reflexivity|].
  by apply lookup_insert_ne.
Qed.

(** Reading an attribute of a fresh instance: the first field of that
    name decides, with its keyword or its default. *)
Lemma init_fold_lookup (kw : kwargs) (fs : list field) (k : string) :
  foldr (fun f inst =>
           <[f_name f := default (get_default f) (kw !! f_name f)]> inst)
        (∅ : instance) fs !! k
  = (fun f => default (get_default f) (kw !! f_name f))
      <$> List.find (fun f => String.eqb (f_name f) k) fs.
Proof.
  induction fs as [|f fs IH]; simpl.
  - apply lookup_empty.
  - destruct (String.eqb_spec (f_name f) k) as [E|Hne].
    + rewrite <- E. by rewrite lookup_insert_eq.
    + by rewrite lookup_insert_ne.
Qed.

Lemma model_init_lookup (m : Model) (kw : kwargs) (inst : instance) (k : string) :
  model_init m kw = Ok inst ->
  inst !! k = (fun f => default (get_default f) (kw !! f_name f))
                <$> get_field m k.
Proof.
  unfold model_init. destruct (forallb _ _); [|discriminate].
  intros H. injection H as <-.
  exact (init_fold_lookup kw (all_fields m) k).
Qed.

Lemma call_with_lookup (k : string) (v : pyval) (extra kw : kwargs) (k' : string) :
  call_with k v extra = Ok kw ->
  kw !! k' = if decide (k = k') then Some v else extra !! k'.
Proof.
  unfold call_with. destruct (extra !! k); [discriminate|].
  intros [= <-]. apply lookup_insert.
Qed.

End Construction.

(** ** Saving *)

Section Saving.

Lemma pre_save_add_fold (now : Z) (fs : list field) (inst : instance) (k : string) :
  (forall f, In f fs -> f_auto_now_add f = true -> f_name f <> k) ->
  foldr (fun f i => if f_auto_now_add f then <[f_name f := PyTime now]> i else i)
        inst fs !! k = inst !! k.
Proof.
  induction fs as [|f fs IH]; simpl; intros H; [reflexivity|].
  destruct (f_auto_now_add f) eqn:E.
  - rewrite lookup_insert_ne; [|by apply H; auto].
    apply IH. intros g Hg. apply H. by right.
  - apply IH. intros g Hg. apply H. by right.
Qed.

Lemma pre_save_add_lookup (now : Z) (m : Model) (inst : instance) (k : string) :
  caller_set m k = true -> pre_save_add now m inst !! k = inst !! k.
Proof.
  unfold caller_set. rewrite andb_true_iff, forallb_forall. intros [_ H].
  apply pre_save_add_fold. intros f Hf Ha E.
  specialize (H f Hf). rewrite Ha, E, String.eqb_refl in H. discriminate.
Qed.

Lemma insert_row_inv (m : Model) (pk : Z) (inst u : instance) (db db' : DB) :
  insert_row m pk inst db = (Ok u, db') ->
  u = inst /\ rows db' = rows db ++ [mkRow m pk inst] /\
  constraints_ok (rows db) m pk inst = true.
Proof.
  unfold insert_row.
  destruct (negb _ && constraints_ok _ _ _ _) eqn:E; [|discriminate].
  intros [= <- <-]. apply andb_true_iff in E as [_ E]. by simpl.
Qed.

Lemma update_row_inv (m : Model) (pk : Z) (inst u : instance) (db db' : DB) :
  update_row m pk inst db = (Ok u, db') ->
  u = inst /\
  rows db' = map (fun r => if is_row m pk r then mkRow m pk inst else r) (rows db) /\
  constraints_ok (rows db) m pk inst = true.
Proof.
  unfold update_row. destruct (constraints_ok _ _ _ _) eqn:E; [|discriminate].
  intros [= <- <-]. by simpl.
Qed.

(** What [save] hands back keeps every attribute the caller set. *)
Lemma save_lookup (now : Z) (m : Model) (inst u : instance) (db db' : DB) (k : string) :
  save now m inst db = (Ok u, db') ->
  caller_set m k = true ->
  u !! k = inst !! k.
Proof.
  unfold save. intros H Hk.
  assert (k <> "id") as Hid.
  { unfold caller_set in Hk. apply andb_true_iff in Hk as [Hk _].
    intros ->. discriminate. }
  destruct (default PyNone (inst !! "id")) as [| | pk | | |]; try discriminate.
  - apply insert_row_inv in H as (-> & _).
    rewrite lookup_insert_ne by done. by apply pre_save_add_lookup.
  - destruct (has_row _ _ _).
    + by apply update_row_inv in H as (-> & _).
    + apply insert_row_inv in H as (-> & _). by apply pre_save_add_lookup.
Qed.

(** What [save] hands back is what it stored. *)
Lemma save_stored (now : Z) (m : Model) (inst u : instance) (db db' : DB) :
  save now m inst db = (Ok u, db') ->
  exists pk, In (mkRow m pk u) (rows db').
Proof.
  unfold save. intros H.
  destruct (default PyNone (inst !! "id")) as [| | pk | | |]; try discriminate.
  - apply insert_row_inv in H as (-> & -> & _).
    eexists. apply in_or_app. right. by left.
  - destruct (has_row (rows db) m pk) eqn:Hrow.
    + apply update_row_inv in H as (-> & -> & _). exists pk.
      unfold has_row in Hrow. apply existsb_exists in Hrow as (r & Hr & Hk).
      apply in_map_iff. exists r. by rewrite Hk.
    + apply insert_row_inv in H as (-> & -> & _).
      eexists. apply in_or_app. right. by left.
Qed.

(** A refused or failed [save] writes nothing. *)
Lemma save_raise (now : Z) (m : Model) (inst : instance) (db db' : DB) (e : exn) :
  save now m inst db = (Raise e, db') -> db' = db.
Proof.
  unfold save, insert_row, update_row.
  repeat (case_match; simpl); congruence.
Qed.

(** An insertion does what a plain [save] does, unless the key is stored
    already: then it is refused. *)
Lemma save_insert_cases (now : Z) (m : Model) (inst : instance) (db : DB) :
  save_insert now m inst db = save now m inst db \/
  save_insert now m inst db = (Raise IntegrityError, db).
Proof.
  unfold save_insert, save.
  destruct (default PyNone (inst !! "id")) as [| | pk | | |]; auto.
  destruct (has_row (rows db) m pk) eqn:E; [right|by left].
  unfold insert_row. by rewrite E.
Qed.

Lemma save_insert_ok (now : Z) (m : Model) (inst u : instance) (db db' : DB) :
  save_insert now m inst db = (Ok u, db') -> save now m inst db = (Ok u, db').
Proof.
  intros H. destruct (save_insert_cases now m inst db) as [E|E];
    rewrite E in H; [exact H|discriminate].
Qed.

Lemma save_insert_new (now : Z) (m : Model) (inst : instance) (db : DB) :
  default PyNone (inst !! "id") = PyNone ->
  save_insert now m inst db = save now m inst db.
Proof. unfold save_insert, save. by intros ->. Qed.

Lemma save_insert_raise (now : Z) (m : Model) (inst : instance) (db db' : DB)
    (e : exn) :
  save_insert now m inst db = (Raise e, db') -> db' = db.
Proof.
  destruct (save_insert_cases now m inst db) as [E|E]; rewrite E.
  - apply save_raise.
  - congruence.
Qed.

(** A successful [create] is a construction followed by a successful
    [save]. *)
Lemma create_save (now : Z) (m : Model) (kw : kwargs) (u : instance) (db db' : DB) :
  create now m kw db = (Ok u, db') ->
  exists inst, model_init m kw = Ok inst /\ save now m inst db = (Ok u, db').
Proof.
  unfold create. destruct (model_init m kw) as [inst|]; [|discriminate].
  intros H. exists inst. split; [reflexivity|by apply save_insert_ok].
Qed.

(** The state after [create] is the state after the [save], or the state
    before. *)
Lemma create_state (now : Z) (m : Model) (kw : kwargs) (db : DB) :
  snd (create now m kw db) = db \/
  exists inst, model_init m kw = Ok inst /\
               snd (create now m kw db) = snd (save now m inst db).
Proof.
  unfold create. destruct (model_init m kw) as [inst|]; [|by left].
  destruct (save_insert_cases now m inst db) as [E|E]; rewrite E.
  - right. by exists inst.
  - by left.
Qed.

(** A successful [create]: the attributes the caller controls are the
    keywords or the defaults, and the instance returned is the row stored. *)
Lemma create_inv (now : Z) (m : Model) (kw : kwargs) (u : instance) (db db' : DB) :
  create now m kw db = (Ok u, db') ->
  (forall k f, get_field m k = Some f -> caller_set m k = true ->
               u !! k = Some (default (get_default f) (kw !! k))) /\
  exists pk, In (mkRow m pk u) (rows db').
Proof.
  intros H. apply create_save in H as (inst & E & H).
  split; [|by apply save_stored in H].
  intros k f Hf Hk.
  rewrite (save_lookup _ _ _ _ _ _ k H Hk), (model_init_lookup _ _ _ k E), Hf.
  simpl. unfold get_field in Hf. apply find_some in Hf as [_ Hf].
  apply String.eqb_eq in Hf. by rewrite Hf.
Qed.

(** A call that is known to succeed, split into its result and state. *)
Lemma ok_split {A S : Type} (r : result A * S) :
  is_ok (fst r) = true -> exists a s, r = (Ok a, s).
Proof. destruct r as [[a|e] s]; [eauto | discriminate]. Qed.

End Saving.

(** ** Account creation *)

Section Accounts.

Variable normalize : string -> string.
Variable encode : string -> string -> string.

(** The steps of [create_user] before the write, read off a successful
    call. *)
Lemma create_user_inv salt now email password extra db u db' :
  create_user normalize encode salt now email password extra db = (Ok u, db') ->
  exists email' kw user h,
    normalize_email normalize email = Ok email' /\
    call_with "email" email' extra = Ok kw /\
    model_init User kw = Ok user /\
    make_password encode salt password = Ok h /\
    save now User (<["password" := PyStr h]> user) db = (Ok u, db').
Proof.
  unfold create_user. destruct (negb (truthy email)); [discriminate|].
  destruct (normalize_email normalize email) as [email'|] eqn:E1; [|discriminate].
  simpl. destruct (call_with "email" email' extra) as [kw|] eqn:E2; [|discriminate].
  simpl. destruct (model_init User kw) as [user|] eqn:E3; [|discriminate].
  simpl. unfold set_password.
  destruct (make_password encode salt password) as [h|] eqn:E4; [|discriminate].
  simpl. intros H. by exists email', kw, user, h.
Qed.

(** An attribute other than the e-mail and the password of a created
    account is the caller's keyword, or the field's default. *)
Lemma create_user_attribute salt now email password extra db u db' k f :
  create_user normalize encode salt now email password extra db = (Ok u, db') ->
  get_field User k = Some f ->
  caller_set User k = true ->
  k <> "email" -> k <> "password" ->
  u !! k = Some (default (get_default f) (extra !! k)).
Proof.
  intros H Hf Hset Hne1 Hne2.
  apply create_user_inv in H as (email' & kw & user & h & _ & E2 & E3 & _ & Hs).
  rewrite (save_lookup _ _ _ _ _ _ k Hs Hset).
  rewrite lookup_insert_ne by done.
  rewrite (model_init_lookup _ _ _ k E3), Hf. simpl.
  assert (f_name f = k) as ->.
  { unfold get_field in Hf. apply find_some in Hf as [_ Hf].
    by apply String.eqb_eq. }
  rewrite (call_with_lookup _ _ _ _ k E2).
  by destruct (decide ("email" = k)) as [<-|].
Qed.

(** C3: for every password value and every set of extra fields,
    [create_user] with an absent (None) or empty e-mail raises the
    validation error "Email is required", and the database is the one it
    was called with: no account is written on this path. *)
Theorem create_user_requires_email salt now email password extra db :
  email = PyNone \/ email = PyStr "" ->
  create_user normalize encode salt now email password extra db
  = (Raise (ValueError "Email is required"), db).
Proof. intros [-> | ->]; reflexivity. Qed.


(** C5: the account returned by [create_superuser] has [is_staff] and
    [is_superuser] true, except for a flag the caller supplies in the
    extra fields, whose supplied value is kept. *)
Theorem create_superuser_flags salt now email password extra db u db' :
  create_superuser normalize encode salt now email password extra db = (Ok u, db') ->
  u !! "is_staff" = Some (default (PyBool true) (extra !! "is_staff")) /\
  u !! "is_superuser" = Some (default (PyBool true) (extra !! "is_superuser")).
Proof.
  unfold create_superuser. intros H. split.
  - rewrite (create_user_attribute _ _ _ _ _ _ _ _ "is_staff" _ H eq_refl);
      [|reflexivity|discriminate|discriminate].
    rewrite setdefault_lookup_ne; [|discriminate].
    by rewrite setdefault_lookup.
  - rewrite (create_user_attribute _ _ _ _ _ _ _ _ "is_superuser" _ H eq_refl);
      [|reflexivity|discriminate|discriminate].
    rewrite setdefault_lookup.
    by rewrite setdefault_lookup_ne; [|discriminate].
Qed.

End Accounts.

Lemma create_user_requires_email_witness :
  (PyNone = PyNone \/ PyNone = PyStr "") /\
  create_user Sample.normalize Sample.encode "salt" 30 PyNone (PyStr "secret")
    Sample.ann Sample.base_db
  = (Raise (ValueError "Email is required"), Sample.base_db).
Proof.
  split; [by left|].
  apply (create_user_requires_email Sample.normalize Sample.encode).
  by left.
Defined.




Lemma create_superuser_flags_witness :
  exists u db',
    create_superuser Sample.normalize Sample.encode "salt" 30
      (PyStr "root@example.org") (PyStr "secret")
      (<["is_staff" := PyBool false]> Sample.ann) Sample.base_db = (Ok u, db') /\
    u !! "is_staff" = Some (PyBool false) /\
    u !! "is_superuser" = Some (PyBool true).
Proof.
  destruct (ok_split (create_superuser Sample.normalize Sample.encode "salt" 30
      (PyStr "root@example.org") (PyStr "secret")
      (<["is_staff" := PyBool false]> Sample.ann) Sample.base_db))
    as (u & db' & E); [vm_compute; reflexivity|].
  exists u, db'. split; [exact E|].
  apply (create_superuser_flags Sample.normalize Sample.encode _ _ _ _ _ _ _ _ E).
Defined.

(** ** Field validation *)

Section Validation.

(** C6: cleaning the [rating] of a Review accepts an integer exactly when
    it lies in [0,5]; in particular 0 and 5 pass, -1 and 6 are refused. *)
Theorem rating_accepts_0_to_5 :
  (forall n : Z,
     is_ok (clean_field Review "rating" (PyInt n)) = true <-> 0 <= n <= 5) /\
  clean_field Review "rating" (PyInt 0) = Ok (PyInt 0) /\
  clean_field Review "rating" (PyInt 5) = Ok (PyInt 5) /\
  clean_field Review "rating" (PyInt (-1)) = Raise (ValidationError ["min_value"]) /\
  clean_field Review "rating" (PyInt 6) = Raise (ValidationError ["max_value"]).
Proof.
  split; [|repeat split; reflexivity].
  intros n. unfold clean_field. simpl.
  unfold clean, validate, run_validators. simpl.
  rewrite !Z.mul_1_r.
  destruct (Z.ltb_spec n 0), (Z.ltb_spec 5 n); simpl; split;
    first [discriminate | lia | reflexivity].
Qed.

(** C7: cleaning the [status] of an Advertisement accepts a string exactly
    when it is one of draft, active, sold, rented. *)
Theorem status_accepts_the_four_choices (s : string) :
  is_ok (clean_field Advertisement "status" (PyStr s)) = true <->
  s = "draft" \/ s = "active" \/ s = "sold" \/ s = "rented".
Proof.
  split.
  - unfold clean_field. simpl. unfold clean, validate. simpl.
    destruct (String.eqb_spec s ""); simpl; [discriminate|].
    destruct (String.eqb_spec s "draft"); [auto|].
    destruct (String.eqb_spec s "active"); [auto|].
    destruct (String.eqb_spec s "sold"); [auto|].
    destruct (String.eqb_spec s "rented"); [auto|].
    simpl. discriminate.
  - intros [-> | [-> | [-> | ->]]]; reflexivity.
Qed.

(** C8, as the code behaves: [notification_type] is declared without the
    choices list, so cleaning it accepts a tag outside
    NOTIFICATION_TYPE_CHOICES, and a Notification carrying that tag is
    stored. *)
Theorem notification_type_is_not_restricted :
  ~ In "spam" (map fst NOTIFICATION_TYPE_CHOICES) /\
  (f_choices <$> get_field Notification "notification_type") = Some None /\
  clean_field Notification "notification_type" (PyStr "spam") = Ok (PyStr "spam") /\
  exists u db',
    create 30 Notification Sample.notification_kwargs Sample.listing_db = (Ok u, db') /\
    u !! "notification_type" = Some (PyStr "spam") /\
    exists pk, In (mkRow Notification pk u) (rows db').
Proof.
  split; [|split; [reflexivity|split; [reflexivity|]]].
  - simpl. intros [H|[H|[H|[H|[]]]]]; discriminate.
  - destruct (ok_split (create 30 Notification Sample.notification_kwargs
                          Sample.listing_db)) as (u & db' & E);
      [vm_compute; reflexivity|].
    exists u, db'. split; [exact E|].
    apply create_inv in E as [Hattr Hrow]. split; [|exact Hrow].
    by rewrite (Hattr "notification_type" _ eq_refl eq_refl).
Qed.

End Validation.

(** ** Defaults *)

Section Defaults.

(** C10: an Advertisement created without a [status] keyword has status
    "draft", on the instance returned and in the row stored. *)
Theorem advertisement_status_defaults_to_draft now kw db u db' :
  kw !! "status" = None ->
  create now Advertisement kw db = (Ok u, db') ->
  u !! "status" = Some (PyStr "draft") /\
  exists pk, In (mkRow Advertisement pk u) (rows db').
Proof.
  intros Hkw H. apply create_inv in H as [Hattr Hrow]. split; [|exact Hrow].
  rewrite (Hattr "status" _ eq_refl eq_refl). simpl. by rewrite Hkw.
Qed.

End Defaults.

Lemma advertisement_status_defaults_to_draft_witness :
  Sample.ad_kwargs !! "status" = None /\
  exists u db',
    create 20 Advertisement Sample.ad_kwargs Sample.base_db = (Ok u, db') /\
    u !! "status" = Some (PyStr "draft") /\
    exists pk, In (mkRow Advertisement pk u) (rows db').
Proof.
  split; [reflexivity|].
  destruct (ok_split (create 20 Advertisement Sample.ad_kwargs Sample.base_db))
    as (u & db' & E); [vm_compute; reflexivity|].
  exists u, db'. split; [exact E|].
  apply (advertisement_status_defaults_to_draft 20 Sample.ad_kwargs
           Sample.base_db u db' eq_refl E).
Defined.

(** ** Decimal arithmetic *)

Section Decimals.

Lemma pow10_pos (k : Z) : 0 <= k -> 0 < 10 ^ k.
Proof. intros H. by apply Z.pow_pos_nonneg. Qed.

Lemma ndigits_fuel_le (fuel : nat) (n k : Z) :
  0 <= k -> n < 10 ^ k -> ndigits_fuel fuel n <= k.
Proof.
  revert n k. induction fuel as [|fuel IH]; intros n k Hk Hn; simpl; [lia|].
  destruct (Z.leb_spec n 0); [lia|].
  assert (k <> 0) by (intros ->; simpl in Hn; lia).
  assert (ndigits_fuel fuel (n / 10) <= k - 1); [|lia].
  apply IH; [lia|].
  apply Z.div_lt_upper_bound; [lia|].
  replace k with (1 + (k - 1)) in Hn by lia.
  rewrite Z.pow_add_r in Hn by lia. exact Hn.
Qed.

(** A coefficient of at most 28 digits passes the context unchanged. *)
Lemma fix_prec_id (d : Dec) : d_int d < 10 ^ prec -> fix_prec d = d.
Proof.
  intros H. unfold fix_prec.
  assert (ndigits (d_int d) <= prec) by (apply ndigits_fuel_le; [done|exact H]).
  destruct (Z.ltb_spec 0 (ndigits (d_int d) - prec)); [lia|reflexivity].
Qed.

(** Rounding half-even lands within half a unit of the last place. *)
Lemma round_half_even_close (n k : Z) :
  0 <= n -> 0 <= k ->
  0 <= round_half_even n k /\
  2 * Z.abs (round_half_even n k * 10 ^ k - n) <= 10 ^ k.
Proof.
  intros Hn Hk. unfold round_half_even.
  pose proof (pow10_pos k Hk) as Hp.
  pose proof (Z.div_mod n (10 ^ k) ltac:(lia)) as Hdm.
  pose proof (Z.mod_pos_bound n (10 ^ k) Hp) as Hr.
  pose proof (Z.div_pos n (10 ^ k) Hn Hp) as Hq.
  set (q := n / 10 ^ k) in *. set (r := n mod 10 ^ k) in *.
  set (P := 10 ^ k) in *.
  destruct (Z.ltb_spec P (2 * r)); simpl.
  - split; [lia|]. replace ((q + 1) * P - n) with (P - r) by lia. lia.
  - destruct (Z.eqb_spec (2 * r) P); simpl.
    + destruct (Z.odd q); (split; [lia|]).
      * replace ((q + 1) * P - n) with (P - r) by lia. lia.
      * replace (q * P - n) with (- r) by lia. lia.
    + split; [lia|]. replace (q * P - n) with (- r) by lia. lia.
Qed.

(** The coefficient [rescale] leaves at exponent -2, against the exact
    quotient [c * 10^e / 10^k] written over the common denominator. *)
Lemma rescale_close (c e k : Z) :
  0 <= c -> 0 <= k ->
  let q := d_int (rescale (mkDec false c (e - k)) (-2)) in
  0 <= q /\
  2 * Z.abs (q * (10 ^ Z.max (- e) 0 * 10 ^ k) - 100 * (c * 10 ^ Z.max e 0))
  <= 10 ^ Z.max (- e) 0 * 10 ^ k.
Proof.
  intros Hc Hk. unfold rescale. simpl.
  set (a := Z.max e 0). set (b := Z.max (- e) 0).
  assert (0 <= a) by lia. assert (0 <= b) by lia.
  assert (e = a - b) as He by lia.
  pose proof (pow10_pos a ltac:(lia)) as HA.
  pose proof (pow10_pos b ltac:(lia)) as HB.
  pose proof (pow10_pos k Hk) as HK.
  destruct (Z.leb_spec (-2) (e - k)) as [Hge|Hlt]; simpl.
  - set (t := e - k - -2). assert (0 <= t) by lia.
    pose proof (pow10_pos t ltac:(lia)) as HT.
    assert (10 ^ t * (10 ^ b * 10 ^ k) = 100 * 10 ^ a) as E.
    { rewrite <- !Z.pow_add_r by lia. replace (t + (b + k)) with (2 + a) by lia.
      rewrite Z.pow_add_r by lia. reflexivity. }
    split; [nia|].
    replace (c * 10 ^ t * (10 ^ b * 10 ^ k) - 100 * (c * 10 ^ a)) with 0 by nia.
    simpl. nia.
  - set (j := -2 - (e - k)). assert (0 < j) by lia.
    pose proof (pow10_pos j ltac:(lia)) as HJ.
    destruct (round_half_even_close c j Hc ltac:(lia)) as [Hq Hclose].
    split; [exact Hq|].
    assert (10 ^ b * 10 ^ k = 10 ^ j * (100 * 10 ^ a)) as E.
    { rewrite <- !Z.pow_add_r by lia. replace (b + k) with (j + (2 + a)) by lia.
      rewrite !Z.pow_add_r by lia. reflexivity. }
    rewrite E. set (q := round_half_even c j) in *.
    replace (q * (10 ^ j * (100 * 10 ^ a)) - 100 * (c * 10 ^ a))
      with ((q * 10 ^ j - c) * (100 * 10 ^ a)) by ring.
    rewrite Z.abs_mul, (Z.abs_eq (100 * 10 ^ a)) by lia. nia.
Qed.

(** On a tie the coefficient kept is the even one. *)
Lemma round_half_even_tie (n k : Z) :
  0 <= n -> 0 <= k ->
  2 * Z.abs (round_half_even n k * 10 ^ k - n) = 10 ^ k ->
  Z.even (round_half_even n k) = true.
Proof.
  intros Hn Hk. unfold round_half_even.
  pose proof (pow10_pos k Hk) as Hp.
  pose proof (Z.div_mod n (10 ^ k) ltac:(lia)) as Hdm.
  pose proof (Z.mod_pos_bound n (10 ^ k) Hp) as Hr.
  set (q := n / 10 ^ k) in *. set (r := n mod 10 ^ k) in *.
  set (P := 10 ^ k) in *.
  destruct (Z.ltb_spec P (2 * r)); simpl.
  - replace ((q + 1) * P - n) with (P - r) by lia. lia.
  - destruct (Z.eqb_spec (2 * r) P); simpl.
    + destruct (Z.odd q) eqn:Eo; intros _.
      * change (q + 1) with (Z.succ q). by rewrite Z.even_succ.
      * by rewrite <- Z.negb_odd, Eo.
    + replace (q * P - n) with (- r) by lia. lia.
Qed.

Lemma rescale_tie (c e k : Z) :
  0 <= c -> 0 <= k ->
  let q := d_int (rescale (mkDec false c (e - k)) (-2)) in
  2 * Z.abs (q * (10 ^ Z.max (- e) 0 * 10 ^ k) - 100 * (c * 10 ^ Z.max e 0))
  = 10 ^ Z.max (- e) 0 * 10 ^ k ->
  Z.even q = true.
Proof.
  intros Hc Hk. unfold rescale. simpl.
  set (a := Z.max e 0). set (b := Z.max (- e) 0).
  assert (0 <= a) by lia. assert (0 <= b) by lia.
  assert (e = a - b) as He by lia.
  pose proof (pow10_pos a ltac:(lia)) as HA.
  pose proof (pow10_pos b ltac:(lia)) as HB.
  pose proof (pow10_pos k Hk) as HK.
  destruct (Z.leb_spec (-2) (e - k)) as [Hge|Hlt]; simpl.
  - set (t := e - k - -2). assert (0 <= t) by lia.
    assert (10 ^ t * (10 ^ b * 10 ^ k) = 100 * 10 ^ a) as E.
    { rewrite <- !Z.pow_add_r by lia. replace (t + (b + k)) with (2 + a) by lia.
      rewrite Z.pow_add_r by lia. reflexivity. }
    replace (c * 10 ^ t * (10 ^ b * 10 ^ k) - 100 * (c * 10 ^ a)) with 0 by nia.
    simpl. nia.
  - set (j := -2 - (e - k)). assert (0 < j) by lia.
    pose proof (pow10_pos j ltac:(lia)) as HJ.
    assert (10 ^ b * 10 ^ k = 10 ^ j * (100 * 10 ^ a)) as E.
    { rewrite <- !Z.pow_add_r by lia. replace (b + k) with (j + (2 + a)) by lia.
      rewrite !Z.pow_add_r by lia. reflexivity. }
    rewrite E. intros Htie. apply round_half_even_tie; [exact Hc|lia|].
    set (q := round_half_even c j) in *.
    replace (q * (10 ^ j * (100 * 10 ^ a)) - 100 * (c * 10 ^ a))
      with ((q * 10 ^ j - c) * (100 * 10 ^ a)) in Htie by ring.
    rewrite Z.abs_mul, (Z.abs_eq (100 * 10 ^ a)) in Htie by lia. nia.
Qed.

End Decimals.

(** ** Printed numbers read back *)

Section Reading.

(** A property of the ten digits is checked digit by digit. *)
Lemma each_digit (P : Z -> Prop) :
  List.Forall P [0; 1; 2; 3; 4; 5; 6; 7; 8; 9] ->
  forall n, 0 <= n <= 9 -> P n.
Proof.
  intros HF n Hn. apply (proj1 (List.Forall_forall P _) HF).
  change (In n (List.map Z.of_nat (List.seq 0 10))).
  apply List.in_map_iff. exists (Z.to_nat n).
  split; [lia|]. apply List.in_seq. lia.
Qed.

Lemma digit_value_digit (n : Z) :
  0 <= n <= 9 -> digit_value (digit n) = Some n.
Proof. revert n. apply each_digit. repeat constructor. Qed.

Lemma digit_is_not_zero (n : Z) : 1 <= n <= 9 -> digit n <> "0"%char.
Proof.
  intros Hn. assert (0 <= n <= 9) as Hd by lia. assert (n <> 0) as Hz by lia.
  clear Hn. revert n Hd Hz.
  apply (each_digit (fun n => n <> 0 -> digit n <> "0"%char)).
  repeat constructor; intros Hz; first [congruence | discriminate].
Qed.

Lemma digit_is_not_point (a : ascii) (d : Z) :
  digit_value a = Some d -> Ascii.eqb a "." = false.
Proof.
  intros H. destruct (Ascii.eqb_spec a "."%char) as [->|]; [|reflexivity].
  discriminate.
Qed.

(** The digits [str] writes denote the number written. *)
Lemma str_fuel_value (fuel : nat) (n : Z) (acc : string) :
  0 <= n < 2 ^ Z.of_nat fuel ->
  digits_value 0 (str_fuel fuel n acc) = digits_value n acc.
Proof.
  revert n acc. induction fuel as [|fuel IH]; intros n acc Hn.
  - simpl in *. by replace n with 0 by lia.
  - rewrite Nat2Z.inj_succ, Z.pow_succ_r in Hn by lia.
    pose proof (Z.div_mod n 10 ltac:(lia)) as Hdm.
    pose proof (Z.mod_pos_bound n 10 ltac:(lia)) as Hr.
    cbn [str_fuel]. destruct (Z.eqb_spec (n / 10) 0) as [E|E].
    + cbn [digits_value]. rewrite digit_value_digit by lia. f_equal. lia.
    + rewrite IH.
      * cbn [digits_value]. rewrite digit_value_digit by lia. f_equal. lia.
      * split; [apply Z.div_pos; lia|].
        apply Z.div_lt_upper_bound; lia.
Qed.

Lemma str_fuel_head (fuel : nat) (n : Z) (acc : string) :
  0 < n < 2 ^ Z.of_nat fuel ->
  exists a rest, str_fuel fuel n acc = String a rest /\ a <> "0"%char.
Proof.
  revert n acc. induction fuel as [|fuel IH]; intros n acc Hn.
  - simpl in Hn. lia.
  - rewrite Nat2Z.inj_succ, Z.pow_succ_r in Hn by lia.
    pose proof (Z.div_mod n 10 ltac:(lia)) as Hdm.
    pose proof (Z.mod_pos_bound n 10 ltac:(lia)) as Hr.
    cbn [str_fuel]. destruct (Z.eqb_spec (n / 10) 0) as [E|E].
    + eexists _, _. split; [reflexivity|]. apply digit_is_not_zero. lia.
    + apply IH. split.
      * assert (0 <= n / 10) by (apply Z.div_pos; lia). lia.
      * apply Z.div_lt_upper_bound; lia.
Qed.

Lemma str_fuel_enough (n : Z) : 0 <= n -> n < 2 ^ Z.of_nat (S (Z.to_nat (Z.log2 n))).
Proof.
  intros Hn. rewrite Nat2Z.inj_succ, Z2Nat.id by apply Z.log2_nonneg.
  destruct (Z.eq_dec n 0) as [->|]; [reflexivity|].
  apply Z.log2_spec. lia.
Qed.

(** [str n] is the integer literal of [n]. *)
Lemma int_literal_str (n : Z) : 0 <= n -> int_literal (str n) = Some n.
Proof.
  intros Hn. pose proof (str_fuel_enough n Hn) as Hf.
  destruct (Z.eq_dec n 0) as [->|Hz]; [reflexivity|].
  unfold str.
  destruct (str_fuel_head (S (Z.to_nat (Z.log2 n))) n "" ltac:(lia))
    as (a & rest & E & Ha).
  pose proof (str_fuel_value (S (Z.to_nat (Z.log2 n))) n "" ltac:(lia)) as Hv.
  rewrite E in *. unfold int_literal.
  destruct (Ascii.eqb_spec a "0"%char); [done|]. simpl andb. exact Hv.
Qed.

(** A point after digits is where [split_point] splits. *)
Lemma split_point_digits (ip fp : string) (acc v : Z) :
  digits_value acc ip = Some v ->
  split_point (ip +:+ "." +:+ fp) = Some (ip, fp).
Proof.
  revert acc. induction ip as [|a ip IH]; intros acc H; [reflexivity|].
  simpl in *. destruct (digit_value a) as [d|] eqn:Ed; [|discriminate].
  rewrite (digit_is_not_point a d Ed). by rewrite (IH _ H).
Qed.

(** What [render2] prints reads back as the coefficient it was given. *)
Lemma read_render2 (q : Z) : 0 <= q -> read_hundredths (render2 q) = Some q.
Proof.
  intros Hq. unfold render2, read_hundredths.
  assert (0 <= q / 100) as Hi by (apply Z.div_pos; lia).
  pose proof (int_literal_str (q / 100) Hi) as Hlit.
  assert (digits_value 0 (str (q / 100)) = Some (q / 100)) as Hd.
  { unfold str. rewrite str_fuel_value by (split; [exact Hi|by apply str_fuel_enough]).
    reflexivity. }
  rewrite (split_point_digits _ _ _ _ Hd). simpl Nat.eqb. cbv iota.
  rewrite Hlit.
  pose proof (Z.div_mod q 100 ltac:(lia)) as H100.
  pose proof (Z.mod_pos_bound q 100 ltac:(lia)) as Hr100.
  pose proof (Z.div_mod (q mod 100) 10 ltac:(lia)) as H10.
  pose proof (Z.mod_pos_bound (q mod 100) 10 ltac:(lia)) as Hr10.
  assert (q mod 10 = (q mod 100) mod 10) as Hm.
  { pose proof (Z.div_mod q 10 ltac:(lia)). pose proof (Z.mod_pos_bound q 10 ltac:(lia)).
    lia. }
  assert (0 <= q mod 100 / 10 <= 9) as Ht.
  { split; [apply Z.div_pos; lia|]. apply Z.lt_succ_r.
    apply Z.div_lt_upper_bound; lia. }
  cbn [digits_value].
  rewrite (digit_value_digit (q mod 100 / 10)) by exact Ht.
  rewrite (digit_value_digit (q mod 10)) by (rewrite Hm; lia).
  f_equal. lia.
Qed.

End Reading.

Section DecimalValues.

Lemma den_pos (p : Dec) : 0 < den p.
Proof. unfold den. apply pow10_pos. lia. Qed.

Lemma ge_int_spec (p : Dec) (n : Z) :
  ge_int p n = true <-> (inject_Z n <= value p)%Q.
Proof.
  unfold ge_int, value, Qle. simpl.
  rewrite Z2Pos.id by apply den_pos. rewrite Z.leb_le. lia.
Qed.

Lemma ge_int_false (p : Dec) (n : Z) :
  ge_int p n = false <-> (value p < inject_Z n)%Q.
Proof.
  unfold ge_int, value, Qlt. simpl.
  rewrite Z2Pos.id by apply den_pos. rewrite Z.leb_gt. lia.
Qed.

(** From the integer bound over the common denominator to the distance
    between the printed number [q/100] and the quotient [(n/d)/s]. *)
Lemma close_as_rationals (q n d : Z) (s : positive) :
  0 < d ->
  2 * Z.abs (q * (d * Z.pos s) - 100 * n) <= d * Z.pos s ->
  (Qabs ((q # 100) - (n # Z.to_pos d) / inject_Z (Z.pos s)) <= 1 # 200)%Q.
Proof.
  intros Hd H. apply Qabs_Qle_condition.
  unfold Qle, Qminus, Qplus, Qopp, Qdiv, Qmult, Qinv. simpl.
  rewrite !Pos2Z.inj_mul, !Z2Pos.id by exact Hd.
  set (S := Z.pos s) in *. assert (0 < S) by (subst S; lia).
  split; nia.
Qed.

(** The same for a tie: the printed number is exactly half a hundredth
    from the quotient. *)
Lemma tie_as_rationals (q n d : Z) (s : positive) :
  0 < d ->
  (Qabs ((q # 100) - (n # Z.to_pos d) / inject_Z (Z.pos s)) == 1 # 200)%Q ->
  2 * Z.abs (q * (d * Z.pos s) - 100 * n) = d * Z.pos s.
Proof.
  intros Hd. unfold Qeq, Qabs, Qminus, Qplus, Qopp, Qdiv, Qmult, Qinv. simpl.
  rewrite !Pos2Z.inj_mul, !Z2Pos.id by exact Hd.
  set (S := Z.pos s) in *. assert (0 < S) as HS by (subst S; lia).
  intros Htie.
  replace (q * (d * S) - 100 * n) with (q * (d * S) + - (n * 1) * 100) by ring.
  lia.
Qed.

End DecimalValues.

Section PriceFormat.

Lemma close_as_rationals_undivided (q n d : Z) :
  0 < d ->
  2 * Z.abs (q * (d * 1) - 100 * n) <= d * 1 ->
  (Qabs ((q # 100) - (n # Z.to_pos d)) <= 1 # 200)%Q.
Proof.
  intros Hd H. apply Qabs_Qle_condition.
  unfold Qle, Qminus, Qplus, Qopp. simpl.
  rewrite !Pos2Z.inj_mul, !Z2Pos.id by exact Hd.
  split; nia.
Qed.

Lemma tie_as_rationals_undivided (q n d : Z) :
  0 < d ->
  (Qabs ((q # 100) - (n # Z.to_pos d)) == 1 # 200)%Q ->
  2 * Z.abs (q * (d * 1) - 100 * n) = d * 1.
Proof.
  intros Hd. unfold Qeq, Qabs, Qminus, Qplus, Qopp. simpl.
  rewrite !Z2Pos.id by exact Hd.
  intros H.
  replace (q * (d * 1) - 100 * n) with (q * d + - n * 100) by ring.
  lia.
Qed.

Lemma format_2f_nonneg (c e : Z) :
  format_2f (mkDec false c e) = render2 (d_int (rescale (mkDec false c e) (-2))).
Proof. unfold format_2f, rescale. simpl. by destruct (_ <=? _). Qed.

(** A non-negative price of at most 28 digits divided by [10^k] and
    formatted: the digits are the quotient to two decimals. *)
Lemma format_quotient (c e : Z) (k : Z) (s : positive) :
  0 <= c < 10 ^ prec -> 0 <= k -> 10 ^ k = Z.pos s ->
  written_with_two_decimals
    (value (mkDec false c e) / inject_Z (Z.pos s))
    (format_2f (truediv_pow10 (mkDec false c e) k)).
Proof.
  intros Hc Hk Hs. unfold truediv_pow10. simpl.
  rewrite fix_prec_id by (simpl; lia).
  rewrite format_2f_nonneg.
  destruct (rescale_close c e k ltac:(lia) Hk) as [Hq Hclose].
  pose proof (rescale_tie c e k ltac:(lia) Hk) as Htie.
  eexists. split; [by apply read_render2|].
  unfold value, num, den, signed_int. simpl. split.
  - apply close_as_rationals; [apply pow10_pos; lia|].
    rewrite <- Hs. exact Hclose.
  - intros H. apply Htie. rewrite Hs.
    apply tie_as_rationals; [apply pow10_pos; lia|exact H].
Qed.

Lemma format_undivided (c e : Z) :
  0 <= c ->
  written_with_two_decimals (value (mkDec false c e)) (format_2f (mkDec false c e)).
Proof.
  intros Hc. rewrite format_2f_nonneg.
  destruct (rescale_close c e 0 Hc ltac:(lia)) as [Hq Hclose].
  pose proof (rescale_tie c e 0 Hc ltac:(lia)) as Htie.
  rewrite Z.sub_0_r in Hq, Hclose, Htie.
  eexists. split; [by apply read_render2|].
  unfold value, num, den, signed_int. simpl. split.
  - apply close_as_rationals_undivided; [apply pow10_pos; lia|exact Hclose].
  - intros H. apply Htie.
    apply tie_as_rationals_undivided; [apply pow10_pos; lia|exact H].
Qed.

(** C1: for a non-negative decimal price (of at most 28 digits, which
    every value of the 20-digit [price] column is), [formatted_price]
    gives: from a million up, the price divided by 1,000,000 written with
    two decimals and the suffix " млн"; from a thousand up to a million,
    the price divided by 1,000 with two decimals and " тыс"; below a
    thousand, the price itself with two decimals and " руб.".  "Written
    with two decimals" is said of the text itself: it is an integer
    literal, a point and two digits, and the number it reads as is the
    nearest hundredth, the even one on a tie.  So 2,340,000 gives
    "2.34 млн" and 1,500 gives "1.50 тыс". *)
Theorem formatted_price_by_magnitude :
  (forall p : Dec,
     d_sign p = false -> 0 <= d_int p < 10 ^ prec ->
     ((1000000 <= value p)%Q ->
        exists s, formatted_price p = s +:+ " млн" /\
                  written_with_two_decimals (value p / 1000000) s) /\
     ((1000 <= value p)%Q /\ (value p < 1000000)%Q ->
        exists s, formatted_price p = s +:+ " тыс" /\
                  written_with_two_decimals (value p / 1000) s) /\
     ((value p < 1000)%Q ->
        exists s, formatted_price p = s +:+ " руб." /\
                  written_with_two_decimals (value p) s)) /\
  formatted_price (of_int 2340000) = "2.34 млн" /\
  formatted_price (of_int 1500) = "1.50 тыс".
Proof.
  split; [|split; reflexivity].
  intros p. destruct p as [sg c e]. simpl. intros -> Hc.
  unfold formatted_price. split; [|split].
  - intros H. apply (ge_int_spec _ 1000000) in H. rewrite H.
    eexists. split; [reflexivity|]. apply (format_quotient c e 6 1000000); [exact Hc|lia|reflexivity].
  - intros [H1 H2]. apply (ge_int_false _ 1000000) in H2.
    apply (ge_int_spec _ 1000) in H1. rewrite H2, H1.
    eexists. split; [reflexivity|]. apply (format_quotient c e 3 1000); [exact Hc|lia|reflexivity].
  - intros H.
    assert (ge_int (mkDec false c e) 1000000 = false) as H2.
    { apply ge_int_false. eapply Qlt_trans; [exact H|]. reflexivity. }
    apply (ge_int_false _ 1000) in H. rewrite H2, H.
    eexists. split; [reflexivity|]. apply format_undivided. lia.
Qed.

(** The spec's examples of the scaled branches. *)
Example formatted_price_2340000 : formatted_price (of_int 2340000) = "2.34 млн".
Proof. reflexivity. Qed.

Example formatted_price_1500 : formatted_price (of_int 1500) = "1.50 тыс".
Proof. reflexivity. Qed.

(** C2 as stated fails: 999 is not rendered as "9.99". *)
Lemma formatted_price_999_is_not_9_99 :
  formatted_price (of_int 999) <> "9.99" +:+ " руб.".
Proof. vm_compute. discriminate. Qed.

(** C2, amended: 999 is below a thousand, so it is printed unscaled with
    two decimals, "999.00", followed by the base-unit suffix; this holds
    for the integer-valued decimal and for the column's two-place form. *)
Theorem formatted_price_999 :
  formatted_price (of_int 999) = "999.00" +:+ " руб." /\
  formatted_price (mkDec false 99900 (-2)) = "999.00" +:+ " руб.".
Proof. split; reflexivity. Qed.

End PriceFormat.

Lemma formatted_price_by_magnitude_witness :
  d_sign (mkDec false 123456 (-2)) = false /\
  0 <= d_int (mkDec false 123456 (-2)) < 10 ^ prec /\
  ((1000 <= value (mkDec false 123456 (-2)))%Q /\
   (value (mkDec false 123456 (-2)) < 1000000)%Q) /\
  exists s, formatted_price (mkDec false 123456 (-2)) = s +:+ " тыс" /\
            written_with_two_decimals (value (mkDec false 123456 (-2)) / 1000) s.
Proof.
  pose proof (proj1 formatted_price_by_magnitude (mkDec false 123456 (-2)) eq_refl
                ltac:(vm_compute; split; [discriminate|reflexivity])) as (_ & H & _).
  assert ((1000 <= value (mkDec false 123456 (-2)))%Q /\
          (value (mkDec false 123456 (-2)) < 1000000)%Q) as Hr
    by (split; vm_compute; [discriminate | reflexivity]).
  split; [reflexivity|]. split; [vm_compute; split; [discriminate|reflexivity]|].
  split; [exact Hr|]. exact (H Hr).
Defined.

(** ** Referential integrity *)

Section Integrity.

(** models.py declares every relation with [on_delete=models.CASCADE]. *)
Lemma every_relation_cascades m f to policy o :
  In f (fields m) -> f_kind f = KForeignKey to policy o -> policy = CASCADE.
Proof.
  destruct m; simpl; intros H E;
    repeat (destruct H as [<-|H]; [simpl in E; congruence|]); destruct H.
Qed.

Lemma has_row_In rs m pk :
  has_row rs m pk = true <-> exists r, In r rs /\ row_key r = (m, pk).
Proof.
  unfold has_row, is_row. rewrite existsb_exists.
  split; intros (r & Hr & H); exists r; split; auto.
  - by apply bool_decide_eq_true in H.
  - by apply bool_decide_eq_true.
Qed.

Lemma fk_ok_mono rs rs' f inst :
  (forall m pk, has_row rs m pk = true -> has_row rs' m pk = true) ->
  fk_ok rs f inst = true -> fk_ok rs' f inst = true.
Proof.
  unfold fk_ok. intros Hmono.
  destruct (f_kind f); auto.
  destruct (inst !! f_name f) as [[]|]; auto.
Qed.

Lemma constraints_fk rs m pk inst f :
  constraints_ok rs m pk inst = true -> In f (fields m) -> fk_ok rs f inst = true.
Proof.
  unfold constraints_ok. rewrite forallb_forall. intros H Hf.
  specialize (H f Hf). by apply andb_true_iff in H as [[_ H]%andb_true_iff _].
Qed.

Lemma insert_row_no_dangling m pk inst db u db' :
  no_dangling (rows db) ->
  insert_row m pk inst db = (Ok u, db') -> no_dangling (rows db').
Proof.
  intros Hinv H. apply insert_row_inv in H as (_ & -> & Hc).
  assert (forall m' k, has_row (rows db) m' k = true ->
                       has_row (rows db ++ [mkRow m pk inst]) m' k = true) as Hmono.
  { intros m' k. rewrite !has_row_In. intros (r & Hr & E). exists r.
    split; [apply in_or_app; by left|exact E]. }
  intros r f Hr Hf. apply in_app_or in Hr as [Hr|[<-|[]]].
  - eapply fk_ok_mono; [exact Hmono|]. by apply Hinv.
  - eapply fk_ok_mono; [exact Hmono|]. simpl in *. by eapply constraints_fk.
Qed.

Lemma update_row_no_dangling m pk inst db u db' :
  no_dangling (rows db) ->
  update_row m pk inst db = (Ok u, db') -> no_dangling (rows db').
Proof.
  intros Hinv H. apply update_row_inv in H as (_ & -> & Hc).
  set (g := fun r => if is_row m pk r then mkRow m pk inst else r).
  assert (forall r, row_key (g r) = row_key r) as Hkey.
  { intros r. unfold g, is_row. case_bool_decide as E; [by rewrite E|done]. }
  assert (forall m' k, has_row (rows db) m' k = true ->
                       has_row (map g (rows db)) m' k = true) as Hmono.
  { intros m' k. rewrite !has_row_In. intros (r & Hr & E). exists (g r).
    split; [by apply in_map|by rewrite Hkey]. }
  intros r f Hr Hf. apply in_map_iff in Hr as (r0 & <- & Hr0).
  eapply fk_ok_mono; [exact Hmono|]. unfold g in *.
  destruct (is_row m pk r0); simpl in *.
  - by eapply constraints_fk.
  - by apply Hinv.
Qed.

Lemma save_no_dangling now m inst db :
  no_dangling (rows db) -> no_dangling (rows (snd (save now m inst db))).
Proof.
  intros Hinv. destruct (save now m inst db) as [[u|e] db'] eqn:E; simpl.
  - unfold save in E.
    destruct (default PyNone (inst !! "id")) as [| | pk | | |]; try discriminate.
    + by eapply insert_row_no_dangling.
    + destruct (has_row _ _ _).
      * by eapply update_row_no_dangling.
      * by eapply insert_row_no_dangling.
  - by rewrite (save_raise _ _ _ _ _ _ E).
Qed.

(** What the collector returns: the rows kept were in [rest] and none
    cascades to the final doomed set, which holds the initial one and the
    key of every row taken out. *)
Lemma collect_spec fuel doomed rest D R :
  (length rest <= fuel)%nat ->
  collect fuel doomed rest = (D, R) ->
  (forall r, In r R -> In r rest) /\
  (forall r, In r R -> cascades_to D r = false) /\
  (forall k, In k doomed -> In k D) /\
  (forall r, In r rest -> In r R \/ In (row_key r) D).
Proof.
  revert doomed rest. induction fuel as [|fuel IH]; intros doomed rest Hlen H.
  - destruct rest; [|simpl in Hlen; lia]. injection H as <- <-.
    repeat split; auto; intros r [].
  - simpl in H.
    destruct (List.filter (cascades_to doomed) rest) as [|h hit] eqn:Ehit.
    + injection H as <- <-. repeat split; auto.
      intros r Hr. destruct (cascades_to doomed r) eqn:Ec; [|reflexivity].
      assert (In r (List.filter (cascades_to doomed) rest)) as Hin
        by (apply filter_In; auto).
      rewrite Ehit in Hin. destruct Hin.
    + pose proof (filter_length (cascades_to doomed) rest) as Hl.
      rewrite Ehit in Hl. simpl in Hl.
      apply IH in H as (Ha & Hb & Hc & Hd); [|lia].
      split; [|split; [|split]].
      * intros r Hr. apply Ha in Hr. by apply filter_In in Hr as [Hr _].
      * exact Hb.
      * intros k Hk. apply Hc. apply in_or_app. by left.
      * intros r Hr. destruct (cascades_to doomed r) eqn:Ec.
        -- right. apply Hc. apply in_or_app. right.
           change (In (row_key r) (map row_key (h :: hit))).
           apply in_map. rewrite <- Ehit. apply filter_In. auto.
        -- apply Hd. apply filter_In. by rewrite Ec.
Qed.

(** A kept row with a CASCADE relation to [(to, pk)] shows that key is not
    doomed. *)
Lemma not_cascading D r f to o pk :
  cascades_to D r = false ->
  In f (fields (r_model r)) ->
  f_kind f = KForeignKey to CASCADE o ->
  r_data r !! f_name f = Some (PyInt pk) ->
  ~ In (to, pk) D.
Proof.
  unfold cascades_to. intros Hc Hf Hk Hv Hin.
  assert (existsb (fun f =>
            match f_kind f with
            | KForeignKey to CASCADE _ =>
                match r_data r !! f_name f with
                | Some (PyInt pk) => bool_decide ((to, pk) ∈ D)
                | _ => false
                end
            | _ => false
            end) (fields (r_model r)) = true) as E; [|congruence].
  apply existsb_exists. exists f. split; [exact Hf|].
  rewrite Hk, Hv. apply bool_decide_eq_true. by apply list_elem_of_In.
Qed.

Lemma delete_spec m pk db :
  exists D,
    In (m, pk) D /\
    (forall r, In r (rows (delete m pk db)) -> In r (rows db) /\ row_key r <> (m, pk)) /\
    (forall r, In r (rows (delete m pk db)) -> cascades_to D r = false) /\
    (forall r, In r (rows db) -> In r (rows (delete m pk db)) \/ In (row_key r) D).
Proof.
  unfold delete. simpl.
  set (rest := List.filter (fun r => negb (is_row m pk r)) (rows db)).
  destruct (collect (length rest) [(m, pk)] rest) as [D R] eqn:E. simpl.
  apply collect_spec in E as (Ha & Hb & Hc & Hd); [|lia].
  exists D. split; [apply Hc; by left|]. split; [|split].
  - intros r Hr. apply Ha in Hr. apply filter_In in Hr as [Hr Hk].
    split; [exact Hr|]. unfold is_row in Hk.
    apply negb_true_iff, bool_decide_eq_false in Hk. exact Hk.
  - exact Hb.
  - intros r Hr. destruct (is_row m pk r) eqn:Ek.
    + right. unfold is_row in Ek. apply bool_decide_eq_true in Ek.
      rewrite Ek. apply Hc. by left.
    + apply Hd. apply filter_In. by rewrite Ek.
Qed.

Lemma delete_no_dangling m pk db :
  no_dangling (rows db) -> no_dangling (rows (delete m pk db)).
Proof.
  intros Hinv. destruct (delete_spec m pk db) as (D & HD & Hsub & Hkeep & Hgone).
  intros r f Hr Hf. pose proof (Hinv r f (proj1 (Hsub r Hr)) Hf) as Hok.
  unfold fk_ok in *. destruct (f_kind f) as [| | | | | | | | | | |to policy o] eqn:Ek; auto.
  destruct (r_data r !! f_name f) as [[| |k| | |]|] eqn:Ev; auto.
  assert (policy = CASCADE) as -> by (by eapply every_relation_cascades).
  pose proof (not_cascading D r f to o k (Hkeep r Hr) Hf Ek Ev) as Hnot.
  apply has_row_In in Hok as (r' & Hr' & Hk'). apply has_row_In.
  exists r'. split; [|exact Hk'].
  destruct (Hgone r' Hr') as [H|H]; [exact H|]. by rewrite Hk' in H.
Qed.

Lemma reachable_no_dangling db : reachable db -> no_dangling (rows db).
Proof.
  induction 1 as [|db o _ IH].
  - intros r f [].
  - destruct o; simpl.
    + by apply save_no_dangling.
    + destruct (create_state now m kw db) as [->|(inst & _ & ->)];
        [exact IH|by apply save_no_dangling].
    + by apply delete_no_dangling.
Qed.

Lemma run_reachable ops db : reachable db -> reachable (run ops db).
Proof.
  revert db. induction ops as [|o ops IH]; intros db H; [exact H|].
  simpl. apply IH. by constructor.
Qed.

(** Account creation is one of the operations: it writes through [save]
    or not at all. *)
Lemma create_user_reachable normalize encode salt now email password extra db :
  reachable db ->
  reachable (snd (create_user normalize encode salt now email password extra db)) /\
  reachable (snd (create_superuser normalize encode salt now email password extra db)).
Proof.
  intros H. unfold create_superuser.
  assert (forall kw, reachable
            (snd (create_user normalize encode salt now email password kw db)))
    as Hu; [|by split].
  intros kw. unfold create_user. destruct (negb (truthy email)); [exact H|].
  destruct (_ <- normalize_email normalize email;; _) as [user|e]; [|exact H].
  exact (reachable_step db (OpSave now User user) H).
Qed.

(** C9: in every state the operations (save, create, delete) reach from
    the empty database, each Photo and each Review refers to a stored
    Advertisement; and deleting an Advertisement removes it together with
    every Photo and Review that referred to it, leaving a reachable state. *)
Theorem cascade_leaves_no_dangling_reference db :
  reachable db ->
  (forall r, In r (rows db) -> r_model r = Photo \/ r_model r = Review ->
     exists pk, r_data r !! "advertisement" = Some (PyInt pk) /\
                has_row (rows db) Advertisement pk = true) /\
  (forall pk,
     has_row (rows (delete Advertisement pk db)) Advertisement pk = false /\
     (forall r, In r (rows (delete Advertisement pk db)) ->
        r_model r = Photo \/ r_model r = Review ->
        r_data r !! "advertisement" <> Some (PyInt pk)) /\
     reachable (delete Advertisement pk db)).
Proof.
  intros Hreach. split.
  - pose proof (reachable_no_dangling db Hreach) as Hinv.
    intros [m k data] Hr Hm. simpl in *.
    pose proof (Hinv _ (ForeignKey "advertisement" Advertisement CASCADE) Hr) as H.
    assert (fk_ok (rows db) (ForeignKey "advertisement" Advertisement CASCADE) data
            = true) as Hok
      by (apply H; destruct Hm as [-> | ->]; simpl; auto).
    unfold fk_ok in Hok. simpl in Hok.
    destruct (data !! "advertisement") as [[| |pk| | |]|]; try discriminate.
    by exists pk.
  - intros pk.
    destruct (delete_spec Advertisement pk db) as (D & HD & Hsub & Hkeep & _).
    split; [|split].
    + destruct (has_row _ _ _) eqn:E; [|reflexivity].
      apply has_row_In in E as (r & Hr & Hk). by destruct (Hsub r Hr) as [_ []].
    + intros [m k data] Hr Hm Hv. simpl in Hm, Hv.
      refine (not_cascading D _ (ForeignKey "advertisement" Advertisement CASCADE)
                Advertisement false pk (Hkeep _ Hr) _ eq_refl Hv HD).
      simpl. destruct Hm as [-> | ->]; simpl; auto.
    + exact (reachable_step db (OpDelete Advertisement pk) Hreach).
Qed.

End Integrity.

Lemma cascade_leaves_no_dangling_reference_witness :
  reachable Sample.listing_db /\
  (forall r, In r (rows Sample.listing_db) ->
     r_model r = Photo \/ r_model r = Review ->
     exists pk, r_data r !! "advertisement" = Some (PyInt pk) /\
                has_row (rows Sample.listing_db) Advertisement pk = true) /\
  (forall pk,
     has_row (rows (delete Advertisement pk Sample.listing_db)) Advertisement pk = false /\
     (forall r, In r (rows (delete Advertisement pk Sample.listing_db)) ->
        r_model r = Photo \/ r_model r = Review ->
        r_data r !! "advertisement" <> Some (PyInt pk)) /\
     reachable (delete Advertisement pk Sample.listing_db)).
Proof.
  assert (reachable Sample.listing_db) as H
    by (apply run_reachable; constructor).
  split; [exact H|]. exact (cascade_leaves_no_dangling_reference _ H).
Defined.

(** The sample listing has a photo and a review, and deleting the
    advertisement leaves only the rows it did not own. *)
Example delete_sample_advertisement :
  map row_key (rows Sample.listing_db)
  = [(User, 1); (PropertyType, 1); (Location, 1); (Category, 1);
     (Advertisement, 1); (Photo, 1); (Review, 1)] /\
  map row_key (rows (delete Advertisement 1 Sample.listing_db))
  = [(User, 1); (PropertyType, 1); (Location, 1); (Category, 1)] /\
  map row_key (rows (delete User 1 Sample.listing_db))
  = [(PropertyType, 1); (Location, 1); (Category, 1)].
Proof. repeat split; vm_compute; reflexivity. Qed.


(** * Further properties of the storage model *)

Import Consistency.

Section Keys.

Lemma pyval_eqb_eq (a b : pyval) : pyval_eqb a b = true <-> a = b.
Proof.
  split.
  - destruct a as [|x|x|x|[s1 i1 e1]|x], b as [|y|y|y|[s2 i2 e2]|y];
      simpl; try discriminate; try reflexivity.
    + intros H. apply Bool.eqb_prop in H. by subst.
    + intros H. apply Z.eqb_eq in H. by subst.
    + intros H. apply String.eqb_eq in H. by subst.
    + unfold dec_eqb. simpl. rewrite !andb_true_iff.
      intros [[H1 H2] H3]. apply Bool.eqb_prop in H1.
      apply Z.eqb_eq in H2, H3. by subst.
    + intros H. apply Z.eqb_eq in H. by subst.
  - intros <-. destruct a as [|x|x|x|[s1 i1 e1]|x]; simpl; auto.
    + by destruct x.
    + apply Z.eqb_refl.
    + apply String.eqb_refl.
    + unfold dec_eqb. simpl. rewrite !Z.eqb_refl. by destruct s1.
    + apply Z.eqb_refl.
Qed.

Lemma has_row_false rs m pk :
  has_row rs m pk = false <-> forall r, In r rs -> row_key r <> (m, pk).
Proof.
  split.
  - intros H r Hr E. assert (has_row rs m pk = true) as H'; [|congruence].
    apply has_row_In. eauto.
  - intros H. destruct (has_row rs m pk) eqn:E; [|reflexivity].
    apply has_row_In in E as (r & Hr & E). by destruct (H r Hr).
Qed.

Lemma NoDup_map_filter {A B} (f : A -> B) (p : A -> bool) (l : list A) :
  List.NoDup (map f l) -> List.NoDup (map f (List.filter p l)).
Proof.
  induction l as [|a l IH]; simpl; [auto|].
  intros H. apply List.NoDup_cons_iff in H as [Hn Hd].
  destruct (p a); simpl; [|auto].
  apply List.NoDup_cons; [|auto].
  intros Hin. apply Hn. apply in_map_iff in Hin as (x & <- & Hx).
  apply in_map. by apply filter_In in Hx as [Hx _].
Qed.

Lemma collect_keys_unique fuel doomed rest D R :
  collect fuel doomed rest = (D, R) ->
  keys_unique rest -> keys_unique R.
Proof.
  unfold keys_unique. revert doomed rest.
  induction fuel as [|fuel IH]; intros doomed rest H Hnd; simpl in H.
  - by injection H as <- <-.
  - destruct (List.filter (cascades_to doomed) rest) as [|h hit].
    + by injection H as <- <-.
    + eapply IH; [exact H|]. by apply NoDup_map_filter.
Qed.

Lemma insert_row_rows m pk inst db u db' :
  insert_row m pk inst db = (Ok u, db') ->
  has_row (rows db) m pk = false /\
  db' = mkDB (rows db ++ [mkRow m pk inst]) (advance m (pk + 1) db).
Proof.
  unfold insert_row.
  destruct (has_row (rows db) m pk); simpl; [discriminate|].
  destruct (constraints_ok _ _ _ _); [|discriminate].
  by intros [= <- <-].
Qed.

Lemma map_key_update m pk inst rs :
  map row_key (map (fun r => if is_row m pk r then mkRow m pk inst else r) rs)
  = map row_key rs.
Proof.
  rewrite map_map. apply map_ext. intros r. unfold is_row.
  case_bool_decide as E; [by rewrite E|done].
Qed.

(** The three ways [save] ends. *)
Lemma save_cases now m inst db :
  (exists e, save now m inst db = (Raise e, db)) \/
  (exists pk u, insert_row m pk u db = (Ok u, snd (save now m inst db)) /\
                fst (save now m inst db) = Ok u) \/
  (exists pk, has_row (rows db) m pk = true /\
              inst !! "id" = Some (PyInt pk) /\
              update_row m pk inst db = (Ok inst, snd (save now m inst db)) /\
              fst (save now m inst db) = Ok inst).
Proof.
  unfold save.
  destruct (default PyNone (inst !! "id")) as [| | pk | | |] eqn:Eid;
    try (left; eauto; fail).
  - set (u := <["id" := _]> _). set (pk := next_pk db m).
    destruct (insert_row m pk u db) as [[u'|e] db'] eqn:E.
    + right; left. exists pk, u. pose proof E as E'.
      apply insert_row_inv in E' as (-> & _). by rewrite E.
    + left. exists e. unfold insert_row in *.
      destruct (_ && _); [discriminate|]. by injection E as <- <-.
  - destruct (has_row (rows db) m pk) eqn:Hrow.
    + destruct (update_row m pk inst db) as [[u'|e] db'] eqn:E.
      * right; right. exists pk. pose proof E as E'.
        apply update_row_inv in E' as (-> & _).
        split; [done|]. split; [|by rewrite E].
        destruct (inst !! "id") as [v|]; simpl in Eid; by subst.
      * left. exists e. unfold update_row in *.
        destruct (constraints_ok _ _ _ _); [discriminate|]. by injection E as <- <-.
    + set (u := pre_save_add now m inst).
      destruct (insert_row m pk u db) as [[u'|e] db'] eqn:E.
      * right; left. exists pk, u. pose proof E as E'.
        apply insert_row_inv in E' as (-> & _). by rewrite E.
      * left. exists e. unfold insert_row in *.
        destruct (_ && _); [discriminate|]. by injection E as <- <-.
Qed.

Lemma insert_row_keys_unique m pk inst db u db' :
  keys_unique (rows db) ->
  insert_row m pk inst db = (Ok u, db') -> keys_unique (rows db').
Proof.
  unfold keys_unique. intros Hnd H.
  apply insert_row_rows in H as [Hfresh ->]. simpl.
  rewrite map_app. simpl. apply List.NoDup_app; [exact Hnd| |].
  - apply List.NoDup_cons; [by intros []|constructor].
  - intros k Hk [<-|[]]. apply in_map_iff in Hk as (r & E & Hr).
    by eapply has_row_false in Hfresh.
Qed.

Lemma update_row_keys_unique m pk inst db u db' :
  keys_unique (rows db) ->
  update_row m pk inst db = (Ok u, db') -> keys_unique (rows db').
Proof.
  unfold keys_unique. intros Hnd H.
  apply update_row_inv in H as (_ & -> & _). by rewrite map_key_update.
Qed.

Lemma save_keys_unique now m inst db :
  keys_unique (rows db) -> keys_unique (rows (snd (save now m inst db))).
Proof.
  intros H. destruct (save_cases now m inst db) as [[e ->]|[(pk & u & E & _)|(pk & _ & _ & E & _)]].
  - exact H.
  - by eapply insert_row_keys_unique.
  - by eapply update_row_keys_unique.
Qed.

Lemma delete_keys_unique m pk db :
  keys_unique (rows db) -> keys_unique (rows (delete m pk db)).
Proof.
  intros H. unfold delete. simpl.
  destruct (collect _ _ _) as [D R] eqn:E. simpl.
  eapply collect_keys_unique; [exact E|]. by apply NoDup_map_filter.
Qed.

Lemma step_cases db o :
  (exists now m inst, step db o = snd (save now m inst db)) \/
  step db o = db \/
  (exists m pk, step db o = delete m pk db).
Proof.
  destruct o; simpl; eauto.
  destruct (create_state now m kw db) as [E|(inst & _ & E)]; rewrite E; eauto.
Qed.

Lemma reachable_keys_unique db : reachable db -> keys_unique (rows db).
Proof.
  induction 1 as [|db o _ IH]; [constructor|].
  destruct (step_cases db o) as [(now & m & inst & ->)|[->|(m & pk & ->)]].
  - by apply save_keys_unique.
  - exact IH.
  - by apply delete_keys_unique.
Qed.

End Keys.

Section Sequences.

Lemma find_filter_other (m m' : Model) (l : list (Model * Z)) :
  m' <> m ->
  List.find (fun e => bool_decide (fst e = m'))
    (List.filter (fun e => negb (bool_decide (fst e = m))) l)
  = List.find (fun e => bool_decide (fst e = m')) l.
Proof.
  intros Hne. induction l as [|[a v] l IH]; simpl; [reflexivity|].
  case_bool_decide as E1; simpl.
  - subst a. case_bool_decide as E2; [done|exact IH].
  - case_bool_decide as E2; [reflexivity|exact IH].
Qed.

Lemma next_pk_advance rs m v db m' :
  next_pk (mkDB rs (advance m v db)) m'
  = if bool_decide (m' = m) then Z.max (next_pk db m) v else next_pk db m'.
Proof.
  unfold next_pk at 1, advance. simpl.
  case_bool_decide as E1; case_bool_decide as E2; try congruence; [reflexivity|].
  unfold next_pk. by rewrite find_filter_other.
Qed.

Lemma insert_row_sequences_ahead m pk inst db u db' :
  sequences_ahead db ->
  insert_row m pk inst db = (Ok u, db') -> sequences_ahead db'.
Proof.
  intros Hs H. apply insert_row_rows in H as [_ ->].
  intros r Hr. simpl in Hr. rewrite next_pk_advance.
  apply in_app_or in Hr as [Hr|[<-|[]]].
  - specialize (Hs r Hr). case_bool_decide as E; [rewrite <- E|]; lia.
  - simpl. rewrite bool_decide_eq_true_2 by done. lia.
Qed.

Lemma update_row_rows m pk inst db u db' :
  update_row m pk inst db = (Ok u, db') ->
  db' = mkDB (map (fun r => if is_row m pk r then mkRow m pk inst else r) (rows db))
             (sequences db).
Proof.
  unfold update_row. destruct (constraints_ok _ _ _ _); [|discriminate].
  by intros [= <- <-].
Qed.

Lemma update_row_sequences_ahead m pk inst db u db' :
  sequences_ahead db ->
  update_row m pk inst db = (Ok u, db') -> sequences_ahead db'.
Proof.
  intros Hs H. apply update_row_rows in H as ->.
  intros r Hr. simpl in Hr.
  apply in_map_iff in Hr as (r0 & <- & Hr0). specialize (Hs r0 Hr0).
  unfold next_pk in *. simpl. unfold is_row. case_bool_decide as E; [|exact Hs].
  injection E as Em Ek. simpl. by subst.
Qed.

Lemma save_sequences_ahead now m inst db :
  sequences_ahead db -> sequences_ahead (snd (save now m inst db)).
Proof.
  intros H. destruct (save_cases now m inst db) as [[e ->]|[(pk & u & E & _)|(pk & _ & _ & E & _)]].
  - exact H.
  - by eapply insert_row_sequences_ahead.
  - by eapply update_row_sequences_ahead.
Qed.

Lemma delete_rows_subset m pk db r :
  In r (rows (delete m pk db)) -> In r (rows db).
Proof.
  intros H. destruct (delete_spec m pk db) as (D & _ & Hsub & _).
  by apply Hsub.
Qed.

Lemma delete_sequences_ahead m pk db :
  sequences_ahead db -> sequences_ahead (delete m pk db).
Proof.
  intros H r Hr. apply delete_rows_subset in Hr. exact (H r Hr).
Qed.

Lemma reachable_sequences_ahead db : reachable db -> sequences_ahead db.
Proof.
  induction 1 as [|db o _ IH]; [by intros r []|].
  destruct (step_cases db o) as [(now & m & inst & ->)|[->|(m & pk & ->)]].
  - by apply save_sequences_ahead.
  - exact IH.
  - by apply delete_sequences_ahead.
Qed.

End Sequences.

Section UniqueColumns.

Lemma unique_ok_spec rs m pk f inst v r :
  unique_ok rs m pk f inst = true ->
  f_unique f = true ->
  inst !! f_name f = Some v ->
  In r rs -> r_model r = m -> r_data r !! f_name f = Some v ->
  r_pk r = pk.
Proof.
  unfold unique_ok. intros H Hu Hv Hr Hm Hw. rewrite Hu, Hv in H. simpl in H.
  apply negb_true_iff in H.
  destruct (Z.eqb_spec (r_pk r) pk) as [E|E]; [exact E|].
  assert (existsb (fun r => bool_decide (r_model r = m) && negb (r_pk r =? pk) &&
                    match r_data r !! f_name f with
                    | Some w => pyval_eqb v w
                    | None => false
                    end) rs = true) as Hex; [|congruence].
  apply existsb_exists. exists r. split; [exact Hr|].
  rewrite Hw, bool_decide_eq_true_2 by exact Hm.
  apply Z.eqb_neq in E. rewrite E. simpl. by apply pyval_eqb_eq.
Qed.

Lemma constraints_unique rs m pk inst f :
  constraints_ok rs m pk inst = true -> In f (fields m) ->
  unique_ok rs m pk f inst = true.
Proof.
  unfold constraints_ok. rewrite forallb_forall. intros H Hf.
  specialize (H f Hf). by apply andb_true_iff in H as [_ H].
Qed.

(** Writing a row that passed the checks, in place of the rows it
    replaces (none, on insertion), keeps the columns unique. *)
Lemma written_row_unique rs rs' m pk inst :
  unique_values rs ->
  constraints_ok rs m pk inst = true ->
  (forall r, In r rs' -> In r rs \/ r = mkRow m pk inst) ->
  unique_values rs'.
Proof.
  intros Hu Hc Hsub r1 r2 f v H1 H2 Hm Hf Hq Hv1 Hv2.
  destruct (Hsub r1 H1) as [H1'| ->], (Hsub r2 H2) as [H2'| ->].
  - by eapply Hu.
  - simpl in *.
    apply (unique_ok_spec rs m pk f inst v r1); auto.
    apply constraints_unique; [exact Hc|]. by rewrite <- Hm.
  - simpl in *. symmetry.
    apply (unique_ok_spec rs m pk f inst v r2); auto.
    by apply constraints_unique.
  - reflexivity.
Qed.

Lemma save_unique_values now m inst db :
  unique_values (rows db) -> unique_values (rows (snd (save now m inst db))).
Proof.
  intros H. destruct (save_cases now m inst db) as [[e ->]|[(pk & u & E & _)|(pk & _ & _ & E & _)]].
  - exact H.
  - pose proof E as E'. apply insert_row_inv in E' as (_ & _ & Hc).
    apply insert_row_rows in E as [_ ->]. simpl.
    eapply written_row_unique; [exact H|exact Hc|].
    intros r Hr. apply in_app_or in Hr as [Hr|[<-|[]]]; auto.
  - pose proof E as E'. apply update_row_inv in E' as (_ & _ & Hc).
    apply update_row_rows in E as ->. simpl.
    eapply written_row_unique; [exact H|exact Hc|].
    intros r Hr. apply in_map_iff in Hr as (r0 & <- & Hr0).
    destruct (is_row m pk r0); auto.
Qed.

Lemma delete_unique_values m pk db :
  unique_values (rows db) -> unique_values (rows (delete m pk db)).
Proof.
  intros H r1 r2 f v H1 H2. apply delete_rows_subset in H1, H2. by apply H.
Qed.

Lemma reachable_unique_values db : reachable db -> unique_values (rows db).
Proof.
  induction 1 as [|db o _ IH]; [by intros r1 r2 f v []|].
  destruct (step_cases db o) as [(now & m & inst & ->)|[->|(m & pk & ->)]].
  - by apply save_unique_values.
  - exact IH.
  - by apply delete_unique_values.
Qed.

End UniqueColumns.

(** ** Facts read off the schema *)

Section SchemaFacts.

(** Within a class the field names are distinct and none is [id], so
    looking a field up by its name finds it. *)
Lemma get_field_of_field m f : In f (fields m) -> get_field m (f_name f) = Some f.
Proof.
  destruct m; simpl; intros H;
    repeat (destruct H as [<-|H]; [reflexivity|]); destruct H.
Qed.

Lemma field_caller_set m f :
  In f (fields m) -> f_auto_now_add f = false -> caller_set m (f_name f) = true.
Proof.
  destruct m; simpl; intros H;
    repeat (destruct H as [<-|H]; [simpl; first [discriminate | reflexivity]|]);
    destruct H.
Qed.

Lemma field_not_id m f : In f (fields m) -> f_name f <> "id".
Proof.
  destruct m; simpl; intros H;
    repeat (destruct H as [<-|H]; [discriminate|]); destruct H.
Qed.

(** No relation of models.py is nullable. *)
Lemma relation_not_null m f to policy o :
  In f (fields m) -> f_kind f = KForeignKey to policy o -> f_null f = false.
Proof.
  destruct m; simpl; intros H E;
    repeat (destruct H as [<-|H]; [simpl in E; first [discriminate | reflexivity]|]);
    destruct H.
Qed.

End SchemaFacts.

(** ** More on account creation *)

Section AccountsMore.

Variable normalize : string -> string.
Variable encode : string -> string -> string.

Lemma is_empty_string s : String.eqb s "" = false <-> s <> "".
Proof. by destruct (String.eqb_spec s ""). Qed.

(** A successful [create_user] was given a non-empty string as e-mail. *)
Lemma create_user_email_inv salt now email password extra db u db' :
  create_user normalize encode salt now email password extra db = (Ok u, db') ->
  exists s, email = PyStr s /\ s <> "" /\ extra !! "email" = None.
Proof.
  intros H. pose proof H as H0. unfold create_user in H0.
  destruct (truthy email) eqn:Et; simpl in H0; [|discriminate].
  apply create_user_inv in H as (email' & kw & user & h & E1 & E2 & _).
  unfold normalize_email in E1. rewrite Et in E1. simpl in E1.
  destruct email as [| | |s| |]; try discriminate.
  exists s. split; [reflexivity|]. split.
  - simpl in Et. apply negb_true_iff in Et. by apply is_empty_string.
  - unfold call_with in E2. by destruct (extra !! "email").
Qed.

Lemma create_user_email_stored salt now email password extra db u db' :
  create_user normalize encode salt now email password extra db = (Ok u, db') ->
  exists s, email = PyStr s /\ s <> "" /\ extra !! "email" = None /\
            u !! "email" = Some (PyStr (normalize s)).
Proof.
  intros H. destruct (create_user_email_inv _ _ _ _ _ _ _ _ H) as (s & -> & Hs & He).
  exists s. repeat split; auto.
  apply create_user_inv in H as (email' & kw & user & h & E1 & E2 & E3 & _ & Hsave).
  rewrite (save_lookup _ _ _ _ _ _ "email" Hsave) by reflexivity.
  rewrite lookup_insert_ne by discriminate.
  rewrite (model_init_lookup _ _ _ "email" E3). simpl.
  rewrite (call_with_lookup _ _ _ _ "email" E2). simpl.
  unfold normalize_email in E1.
  destruct (negb (truthy (PyStr s))) eqn:Et.
  - simpl in Et. rewrite negb_involutive in Et.
    apply String.eqb_eq in Et. contradiction.
  - by injection E1 as <-.
Qed.

(** X1 (e-mail): the account [create_user] returns carries the
    normalised form of the e-mail it was given; a call succeeds only on a
    non-empty string, and never when the extra fields name the e-mail
    again. *)
Theorem create_user_stores_normalized_email salt now email password extra db u db' :
  create_user normalize encode salt now email password extra db = (Ok u, db') ->
  exists s, email = PyStr s /\ s <> "" /\ extra !! "email" = None /\
            u !! "email" = Some (PyStr (normalize s)).
Proof. apply create_user_email_stored. Qed.

(** X2 (flags): an account made by [create_user] is active, and is not
    staff, agent or superuser, except where the caller passes the flag. *)
Theorem create_user_default_flags salt now email password extra db u db' :
  create_user normalize encode salt now email password extra db = (Ok u, db') ->
  u !! "is_active" = Some (default (PyBool true) (extra !! "is_active")) /\
  u !! "is_staff" = Some (default (PyBool false) (extra !! "is_staff")) /\
  u !! "is_agent" = Some (default (PyBool false) (extra !! "is_agent")) /\
  u !! "is_superuser" = Some (default (PyBool false) (extra !! "is_superuser")).
Proof.
  intros H. repeat split.
  - by rewrite (create_user_attribute _ _ _ _ _ _ _ _ _ _ "is_active" _ H eq_refl).
  - by rewrite (create_user_attribute _ _ _ _ _ _ _ _ _ _ "is_staff" _ H eq_refl).
  - by rewrite (create_user_attribute _ _ _ _ _ _ _ _ _ _ "is_agent" _ H eq_refl).
  - by rewrite (create_user_attribute _ _ _ _ _ _ _ _ _ _ "is_superuser" _ H eq_refl).
Qed.

End AccountsMore.

Section Writing.

Lemma model_init_id m kw inst :
  model_init m kw = Ok inst -> inst !! "id" = Some (default PyNone (kw !! "id")).
Proof. intros H. by rewrite (model_init_lookup _ _ _ "id" H). Qed.

(** Saving an instance that has no key is an insertion under the next key
    of the table. *)
Lemma save_new now m inst db :
  default PyNone (inst !! "id") = PyNone ->
  save now m inst db
  = insert_row m (next_pk db m)
      (<["id" := PyInt (next_pk db m)]> (pre_save_add now m inst)) db.
Proof. intros H. unfold save. by rewrite H. Qed.

Lemma pre_save_add_stamped now m inst f :
  In f (fields m) -> f_auto_now_add f = true ->
  pre_save_add now m inst !! f_name f = Some (PyTime now).
Proof.
  unfold pre_save_add. generalize (fields m) as fs.
  induction fs as [|g fs IH]; simpl; intros Hf Ha; [destruct Hf|].
  destruct (f_auto_now_add g) eqn:Eg.
  - destruct (decide (f_name g = f_name f)) as [E|E].
    + rewrite E. apply lookup_insert_eq.
    + rewrite lookup_insert_ne by exact E.
      destruct Hf as [->|Hf]; [done|]. by apply IH.
  - destruct Hf as [->|Hf]; [congruence|]. by apply IH.
Qed.

(** What an auto-keyed [create] that succeeds did. *)
Lemma create_new_inv now m kw db u db' :
  kw !! "id" = None ->
  create now m kw db = (Ok u, db') ->
  exists inst,
    model_init m kw = Ok inst /\
    u = <["id" := PyInt (next_pk db m)]> (pre_save_add now m inst) /\
    has_row (rows db) m (next_pk db m) = false /\
    constraints_ok (rows db) m (next_pk db m) u = true /\
    db' = mkDB (rows db ++ [mkRow m (next_pk db m) u])
               (advance m (next_pk db m + 1) db).
Proof.
  intros Hid H. apply create_save in H as (inst & E & H).
  exists inst. split; [exact E|].
  rewrite save_new in H by (by rewrite (model_init_id _ _ _ E), Hid).
  pose proof H as H'. apply insert_row_inv in H' as (-> & _ & Hc).
  apply insert_row_rows in H as [Hf ->]. auto.
Qed.

(** X3 (creation time): a record created without an explicit key has each
    [auto_now_add] column set to the time of creation, whatever the caller
    passed for it. *)
Theorem create_stamps_auto_now_add now m kw db u db' f :
  kw !! "id" = None ->
  create now m kw db = (Ok u, db') ->
  In f (fields m) -> f_auto_now_add f = true ->
  u !! f_name f = Some (PyTime now).
Proof.
  intros Hid H Hf Ha.
  apply create_new_inv in H as (inst & _ & -> & _); [|exact Hid].
  rewrite lookup_insert_ne by (apply not_eq_sym; by eapply field_not_id).
  by apply pre_save_add_stamped.
Qed.

End Writing.

Section AccountWrites.

Variable normalize : string -> string.
Variable encode : string -> string -> string.

Lemma create_user_raise salt now email password extra db e db' :
  create_user normalize encode salt now email password extra db = (Raise e, db') ->
  db' = db.
Proof.
  unfold create_user. destruct (negb (truthy email)); [congruence|].
  destruct (_ <- normalize_email normalize email;; _) as [user|e0]; [|congruence].
  apply save_raise.
Qed.

(** The instance [create_user] saves, when no key is passed, has none. *)
Lemma create_user_new_inv salt now email password extra db u db' :
  extra !! "id" = None ->
  create_user normalize encode salt now email password extra db = (Ok u, db') ->
  exists inst,
    u = <["id" := PyInt (next_pk db User)]> (pre_save_add now User inst) /\
    has_row (rows db) User (next_pk db User) = false /\
    constraints_ok (rows db) User (next_pk db User) u = true /\
    db' = mkDB (rows db ++ [mkRow User (next_pk db User) u])
               (advance User (next_pk db User + 1) db).
Proof.
  intros Hid H.
  apply create_user_inv in H as (email' & kw & user & h & _ & E2 & E3 & _ & Hs).
  exists (<["password" := PyStr h]> user).
  rewrite save_new in Hs.
  - pose proof Hs as H'. apply insert_row_inv in H' as (-> & _ & Hc).
    apply insert_row_rows in Hs as [Hf ->]. auto.
  - rewrite lookup_insert_ne by discriminate.
    rewrite (model_init_id _ _ _ E3).
    rewrite (call_with_lookup _ _ _ _ "id" E2). simpl. by rewrite Hid.
Qed.

(** X4 (one row): called without an explicit key, [create_user] either
    fails and leaves the database as it was, or appends exactly one User
    row, under the next key of the table, which no stored row had; the rows
    already stored are unchanged. *)
Theorem create_user_adds_one_account salt now email password extra db :
  extra !! "id" = None ->
  match create_user normalize encode salt now email password extra db with
  | (Ok u, db') =>
      u !! "id" = Some (PyInt (next_pk db User)) /\
      rows db' = rows db ++ [mkRow User (next_pk db User) u] /\
      has_row (rows db) User (next_pk db User) = false
  | (Raise _, db') => db' = db
  end.
Proof.
  intros Hid.
  destruct (create_user normalize encode salt now email password extra db)
    as [[u|e] db'] eqn:E.
  - apply create_user_new_inv in E as (inst & -> & Hf & _ & ->); [|exact Hid].
    split; [apply lookup_insert_eq|]. by split.
  - by eapply create_user_raise.
Qed.

(** X5 (registration time): the account's [date_joined] is the time of
    the call, whatever [date_joined] the extra fields carry. *)
Theorem create_user_stamps_date_joined salt now email password extra db u db' :
  extra !! "id" = None ->
  create_user normalize encode salt now email password extra db = (Ok u, db') ->
  u !! "date_joined" = Some (PyTime now).
Proof.
  intros Hid H.
  apply create_user_new_inv in H as (inst & -> & _); [|exact Hid].
  rewrite lookup_insert_ne by discriminate.
  apply (pre_save_add_stamped now User inst
           (with_auto_now_add (DateTimeField "date_joined")));
    [simpl; auto 12|reflexivity].
Qed.

(** The extra fields a bound call hands to the body name neither
    parameter, and a call with both arguments positional and neither name
    among the keywords is the body run on them: the call the body of
    [create_superuser] makes. *)
Lemma bind_arguments_extra args kw email password extra :
  bind_arguments args kw = Ok (email, password, extra) ->
  extra !! "email" = None /\ extra !! "password" = None.
Proof.
  unfold bind_arguments. intros H.
  assert (extra = base.delete "email" (base.delete "password" kw)) as ->.
  { destruct args as [|a [|b [|c args]]]; try discriminate;
      repeat (case_match; try discriminate); by injection H. }
  split; [apply lookup_delete_eq|].
  rewrite lookup_delete_ne by done. apply lookup_delete_eq.
Qed.

Lemma call_create_user_positional salt now email password kw db :
  kw !! "email" = None -> kw !! "password" = None ->
  call_create_user normalize encode salt now [email; password] kw db
  = create_user normalize encode salt now email password kw db.
Proof.
  intros He Hp. unfold call_create_user, bind_arguments. rewrite He, Hp.
  rewrite (delete_id kw "password") by exact Hp.
  by rewrite (delete_id kw "email") by exact He.
Qed.

(** X6 (an argument given twice): a call of [create_user] that passes the
    e-mail positionally and again as a keyword, or the password
    positionally and again as a keyword, is a TypeError.  It is raised when
    the arguments are bound to the parameters, before the body runs: so
    whatever the e-mail is, also None or empty, for which the body would
    raise ValueError, and with nothing written. *)
Theorem create_user_argument_given_twice salt now email args kw db v :
  kw !! "email" = Some v \/ (args <> [] /\ kw !! "password" = Some v) ->
  call_create_user normalize encode salt now (email :: args) kw db
  = (Raise TypeError, db).
Proof.
  intros H. unfold call_create_user, bind_arguments.
  destruct args as [|password [|third args]].
  - destruct H as [-> | [[] _]]; reflexivity.
  - destruct H as [-> | [_ H]]; [reflexivity|].
    rewrite H. by destruct (kw !! "email").
  - reflexivity.
Qed.

(** X7 (taken e-mail): in a reachable state, [create_user] with an e-mail
    whose normalised form an account already holds fails and writes
    nothing (the caller not passing a key). *)
Theorem create_user_refuses_taken_email salt now s password extra db r :
  reachable db ->
  In r (rows db) -> r_model r = User ->
  r_data r !! "email" = Some (PyStr (normalize s)) ->
  extra !! "id" = None ->
  exists e,
    create_user normalize encode salt now (PyStr s) password extra db
    = (Raise e, db).
Proof.
  intros Hreach Hr Hm He Hid.
  destruct (create_user normalize encode salt now (PyStr s) password extra db)
    as [[u|e] db'] eqn:E.
  - exfalso.
    destruct (create_user_email_stored _ _ _ _ _ _ _ _ _ _ E)
      as (s' & [= <-] & _ & _ & Hu).
    apply create_user_new_inv in E as (inst & Eu & _ & Hc & _); [|exact Hid].
    pose proof (reachable_sequences_ahead db Hreach r Hr) as Hlt.
    rewrite Hm in Hlt.
    assert (r_pk r = next_pk db User); [|lia].
    apply (unique_ok_spec (rows db) User (next_pk db User)
             (with_unique (EmailField "email")) u (PyStr (normalize s)) r);
      auto.
    apply constraints_unique; [exact Hc|]. simpl. auto 12.
  - exists e. by rewrite (create_user_raise _ _ _ _ _ _ _ _ E).
Qed.

End AccountWrites.

(** ** Relations and deletion *)

Import Relations.

Section Cascade.

Lemma all_models_complete m : In m all_models.
Proof. destruct m; simpl; auto 20. Qed.

Lemma cascades_to_inv D r :
  cascades_to D r = true ->
  exists f to o pk,
    In f (fields (r_model r)) /\ f_kind f = KForeignKey to CASCADE o /\
    r_data r !! f_name f = Some (PyInt pk) /\ In (to, pk) D.
Proof.
  unfold cascades_to. intros H. apply existsb_exists in H as (f & Hf & H).
  destruct (f_kind f) as [| | | | | | | | | | |to [|] o] eqn:Ek; try discriminate.
  destruct (r_data r !! f_name f) as [[| |pk| | |]|] eqn:Ev; try discriminate.
  apply bool_decide_eq_true, list_elem_of_In in H.
  exists f, to, o, pk. auto.
Qed.

Lemma cascades_to_intro D r f to o pk :
  In f (fields (r_model r)) -> f_kind f = KForeignKey to CASCADE o ->
  r_data r !! f_name f = Some (PyInt pk) -> In (to, pk) D ->
  cascades_to D r = true.
Proof.
  intros Hf Hk Hv Hin. destruct (cascades_to D r) eqn:E; [reflexivity|].
  by destruct (not_cascading D r f to o pk E Hf Hk Hv).
Qed.

Lemma refers_to_model_intro m f to policy o :
  In f (fields m) -> f_kind f = KForeignKey to policy o ->
  refers_to_model to m = true.
Proof.
  intros Hf Hk. unfold refers_to_model. apply existsb_exists.
  exists f. split; [exact Hf|]. rewrite Hk. by apply bool_decide_eq_true.
Qed.

Lemma is_referenced_intro m f to policy o :
  In f (fields m) -> f_kind f = KForeignKey to policy o -> is_referenced to = true.
Proof.
  intros Hf Hk. unfold is_referenced. apply existsb_exists.
  exists m. split; [apply all_models_complete|]. by eapply refers_to_model_intro.
Qed.

Lemma filter_none {A} (p : A -> bool) (l : list A) :
  List.filter p l = [] <-> forall x, In x l -> p x = false.
Proof.
  split.
  - intros H x Hx. destruct (p x) eqn:E; [|reflexivity].
    assert (In x (List.filter p l)) as Hin by (apply filter_In; auto).
    rewrite H in Hin. destruct Hin.
  - intros H. induction l as [|a l IH]; simpl; [reflexivity|].
    rewrite (H a) by (by left). apply IH. intros x Hx. apply H. by right.
Qed.

Lemma filter_all {A} (p : A -> bool) (l : list A) :
  (forall x, In x l -> p x = true) -> List.filter p l = l.
Proof.
  intros H. induction l as [|a l IH]; simpl; [reflexivity|].
  rewrite (H a) by (by left). f_equal. apply IH. intros x Hx. apply H. by right.
Qed.

Lemma filter_and {A} (p q : A -> bool) (l : list A) :
  List.filter (fun x => p x && q x) l = List.filter q (List.filter p l).
Proof.
  induction l as [|a l IH]; simpl; [reflexivity|].
  destruct (p a); simpl; [|exact IH]. destruct (q a); by rewrite IH.
Qed.

(** A round that collects nothing ends the collector. *)
Lemma collect_stable fuel D rest :
  List.filter (cascades_to D) rest = [] -> collect fuel D rest = (D, rest).
Proof. intros H. destruct fuel; simpl; [reflexivity|]. by rewrite H. Qed.

(** Where the doomed keys come from: the initial ones, or rows that
    cascade. *)
Lemma collect_origin fuel doomed rest D R k :
  collect fuel doomed rest = (D, R) -> In k D ->
  In k doomed \/
  exists r D0, In r rest /\ row_key r = k /\ cascades_to D0 r = true.
Proof.
  revert doomed rest. induction fuel as [|fuel IH]; intros doomed rest H Hk;
    simpl in H.
  - injection H as <- <-. by left.
  - destruct (List.filter (cascades_to doomed) rest) as [|h hit] eqn:Ehit.
    + injection H as <- <-. by left.
    + destruct (IH _ _ H Hk) as [Hd|(r & D0 & Hr & Hkey & Hc)].
      * apply in_app_or in Hd as [Hd|Hd]; [by left|]. right.
        change (In k (map row_key (h :: hit))) in Hd.
        apply in_map_iff in Hd as (r & Hkey & Hr). rewrite <- Ehit in Hr.
        apply filter_In in Hr as [Hr Hc]. eauto.
      * right. apply filter_In in Hr as [Hr _]. eauto.
Qed.

Lemma delete_rows m pk db :
  rows (delete m pk db)
  = snd (collect (length (List.filter (fun r => negb (is_row m pk r)) (rows db)))
           [(m, pk)] (List.filter (fun r => negb (is_row m pk r)) (rows db))).
Proof. reflexivity. Qed.

(** Deletion when the referrers have no referrers: one round. *)
Lemma delete_one_level m pk db :
  referrers_are_leaves m = true ->
  rows (delete m pk db)
  = List.filter (fun r => negb (is_row m pk r) && negb (cascades_to [(m, pk)] r))
      (rows db).
Proof.
  intros Hleaf. rewrite delete_rows, filter_and.
  set (rest := List.filter (fun r => negb (is_row m pk r)) (rows db)).
  destruct (length rest) as [|n] eqn:El.
  - destruct rest; [reflexivity|discriminate].
  - simpl.
    destruct (List.filter (cascades_to [(m, pk)]) rest) as [|h hit] eqn:Ehit.
    + simpl. symmetry. apply filter_all. intros r Hr.
      by rewrite (proj1 (filter_none _ _) Ehit r Hr).
    + rewrite collect_stable; [reflexivity|].
      apply filter_none. intros r1 Hr1. apply filter_In in Hr1 as [Hr1 Hn1].
      apply negb_true_iff in Hn1.
      match goal with
      | |- cascades_to ?D r1 = false => destruct (cascades_to D r1) eqn:Ec
      end; [exfalso|reflexivity].
      apply cascades_to_inv in Ec as (f & to & o & k & Hf & Hk & Hv & Hin).
      destruct Hin as [Hin|Hin].
      * assert (cascades_to [(m, pk)] r1 = true); [|congruence].
        eapply cascades_to_intro; eauto. rewrite Hin. by left.
      * change (In (to, k) (map row_key (h :: hit))) in Hin.
        apply in_map_iff in Hin as (h0 & Hkey & Hh0). rewrite <- Ehit in Hh0.
        apply filter_In in Hh0 as [_ Hc0].
        apply cascades_to_inv in Hc0 as (g & to0 & o0 & k0 & Hg & Hgk & _ & Hg0).
        destruct Hg0 as [[= -> ->]|[]].
        assert (to = r_model h0) as -> by (by injection Hkey).
        unfold referrers_are_leaves in Hleaf. rewrite forallb_forall in Hleaf.
        specialize (Hleaf (r_model h0) (all_models_complete _)).
        rewrite (refers_to_model_intro _ _ _ _ _ Hg Hgk) in Hleaf.
        rewrite (is_referenced_intro _ _ _ _ _ Hf Hk) in Hleaf. discriminate.
Qed.

Lemma unreferenced_never_cascaded m pk r :
  is_referenced m = false -> cascades_to [(m, pk)] r = false.
Proof.
  intros Hn. destruct (cascades_to _ r) eqn:Ec; [|reflexivity].
  apply cascades_to_inv in Ec as (f & to & o & k & Hf & Hk & _ & [[= -> ->]|[]]).
  by rewrite (is_referenced_intro _ _ _ _ _ Hf Hk) in Hn.
Qed.

Lemma unreferenced_leaves m : is_referenced m = false -> referrers_are_leaves m = true.
Proof.
  intros Hn. unfold referrers_are_leaves. apply forallb_forall. intros m' Hm'.
  destruct (refers_to_model m m') eqn:E; [|reflexivity].
  unfold is_referenced in Hn.
  assert (existsb (refers_to_model m) all_models = true); [|congruence].
  apply existsb_exists. eauto.
Qed.

End Cascade.

Section RelationsHold.

Lemma same_key_same_row rs r1 r2 :
  keys_unique rs -> In r1 rs -> In r2 rs -> row_key r1 = row_key r2 -> r1 = r2.
Proof.
  unfold keys_unique. induction rs as [|a rs IH]; simpl; [by intros _ []|].
  intros Hnd H1 H2 E. apply List.NoDup_cons_iff in Hnd as [Hn Hd].
  destruct H1 as [->|H1], H2 as [->|H2]; auto.
  - destruct Hn. rewrite E. by apply in_map.
  - destruct Hn. rewrite <- E. by apply in_map.
Qed.

(** X8 (relations): in every reachable state each relation of each stored
    record (agency and user of an Agent, owner, type, location and
    category of an Advertisement, both ends of a favourite, of a review,
    of a notification, the advertisement of a photo) holds the key of a
    stored record of the class it refers to. *)
Theorem every_relation_points_at_a_record db r f to policy o :
  reachable db ->
  In r (rows db) -> In f (fields (r_model r)) ->
  f_kind f = KForeignKey to policy o ->
  exists pk, r_data r !! f_name f = Some (PyInt pk) /\
             has_row (rows db) to pk = true.
Proof.
  intros Hreach Hr Hf Hk.
  pose proof (reachable_no_dangling db Hreach r f Hr Hf) as H.
  unfold fk_ok in H. rewrite Hk in H.
  destruct (r_data r !! f_name f) as [[| |pk| | |]|]; try discriminate.
  - by rewrite (relation_not_null _ _ _ _ _ Hf Hk) in H.
  - eauto.
Qed.

Lemma delete_no_referrer db m pk :
  has_row (rows (delete m pk db)) m pk = false /\
  forall r f policy o,
    In r (rows (delete m pk db)) -> In f (fields (r_model r)) ->
    f_kind f = KForeignKey m policy o ->
    r_data r !! f_name f <> Some (PyInt pk).
Proof.
  destruct (delete_spec m pk db) as (D & HD & Hsub & Hkeep & _). split.
  - apply has_row_false. intros r Hr. by apply Hsub.
  - intros r f policy o Hr Hf Hk Hv.
    assert (policy = CASCADE) as -> by (by eapply every_relation_cascades).
    exact (not_cascading D r f m o pk (Hkeep r Hr) Hf Hk Hv HD).
Qed.

(** X9 (cascade, every class): after a record is deleted it is not
    stored, and no stored record refers to it through any relation. *)
Theorem delete_removes_every_referrer db m pk :
  has_row (rows (delete m pk db)) m pk = false /\
  forall r f policy o,
    In r (rows (delete m pk db)) -> In f (fields (r_model r)) ->
    f_kind f = KForeignKey m policy o ->
    r_data r !! f_name f <> Some (PyInt pk).
Proof. apply delete_no_referrer. Qed.

(** X10 (deleting a leaf): a class no relation refers to (Photo, Review,
    FavoriteAdvertisement, Notification, Agent, Statistics) loses exactly
    the deleted row; every other row of the database stays. *)
Theorem delete_unreferenced_removes_one_row db m pk :
  is_referenced m = false ->
  rows (delete m pk db)
  = List.filter (fun r => negb (is_row m pk r)) (rows db).
Proof.
  intros Hn. rewrite delete_one_level by (by apply unreferenced_leaves).
  apply filter_ext. intros r.
  by rewrite (unreferenced_never_cascaded m pk r Hn), andb_true_r.
Qed.

(** X11 (deleting an advertisement or an agency): for a class whose
    referrers are referred to by none, deletion removes the record and the
    records that refer to it, and nothing else. *)
Theorem delete_removes_the_record_and_its_referrers db m pk :
  referrers_are_leaves m = true ->
  rows (delete m pk db)
  = List.filter (fun r => negb (is_row m pk r) && negb (cascades_to [(m, pk)] r))
      (rows db).
Proof. apply delete_one_level. Qed.

(** Deletion keeps a row unless it is the one deleted or it has a
    relation. *)
Lemma delete_keeps_unrelated db m pk r :
  In r (rows db) -> has_relation (r_model r) = false -> row_key r <> (m, pk) ->
  In r (rows (delete m pk db)).
Proof.
  intros Hr Hrel Hkey. rewrite delete_rows.
  set (rest := List.filter (fun r => negb (is_row m pk r)) (rows db)).
  destruct (collect (length rest) [(m, pk)] rest) as [D R] eqn:E. simpl.
  pose proof E as E'. apply collect_spec in E' as (_ & _ & _ & Hd); [|lia].
  assert (In r rest) as Hin.
  { apply filter_In. split; [exact Hr|]. apply negb_true_iff.
    unfold is_row. by apply bool_decide_eq_false. }
  destruct (Hd r Hin) as [H|H]; [exact H|exfalso].
  destruct (collect_origin _ _ _ _ _ _ E H) as [[Hs|[]]|(r0 & D0 & _ & Hk0 & Hc)];
    [by symmetry in Hs|].
  apply cascades_to_inv in Hc as (f & to & o & k & Hf & Hk & _).
  assert (has_relation (r_model r0) = true) as Hrel0.
  { unfold has_relation. apply existsb_exists. exists f. by rewrite Hk. }
  assert (r_model r0 = r_model r) as Em by (by injection Hk0).
  congruence.
Qed.

(** X12 (records without relations): deleting a record never removes a
    User, Agency, PropertyType, Location, Category or Statistics row other
    than the record itself. *)
Theorem delete_keeps_records_without_relations db m pk r :
  In r (rows db) -> has_relation (r_model r) = false -> row_key r <> (m, pk) ->
  In r (rows (delete m pk db)).
Proof. apply delete_keeps_unrelated. Qed.

(** X13 (agency counters): an operation on another table leaves every
    Agency row as it is; creating or deleting agents and advertisements
    does not touch [agent_count] or [advertisement_count]. *)
Theorem other_tables_leave_agencies_alone db o r :
  op_model o <> Agency ->
  In r (rows db) -> r_model r = Agency ->
  In r (rows (step db o)).
Proof.
  intros Hm Hr Ha.
  assert (forall now m inst, m <> Agency -> In r (rows (snd (save now m inst db))))
    as Hsave.
  { intros now m inst Hne.
    destruct (save_cases now m inst db)
      as [[e ->]|[(pk & u & E & _)|(pk & _ & _ & E & _)]]; [exact Hr| |].
    - apply insert_row_rows in E as [_ ->]. simpl. apply in_or_app. by left.
    - apply update_row_rows in E as ->. simpl. apply in_map_iff. exists r.
      split; [|exact Hr]. unfold is_row. rewrite bool_decide_eq_false_2; [done|].
      intros [= E _]. congruence. }
  destruct o as [now m inst|now m kw|m pk]; simpl in *.
  - by apply Hsave.
  - destruct (create_state now m kw db) as [->|(inst & _ & ->)];
      [exact Hr|by apply Hsave].
  - apply delete_keeps_unrelated; [exact Hr|by rewrite Ha|].
    intros [= E _]. congruence.
Qed.

(** X14 (deleting an account): in a reachable state, deleting a User also
    removes what hangs on the advertisements that user owned: no photo,
    review, favourite or notification of such an advertisement stays. *)
Theorem delete_user_reaches_through_advertisements db pk a p :
  reachable db ->
  In a (rows db) -> r_model a = Advertisement ->
  r_data a !! "user" = Some (PyInt pk) ->
  In p (rows (delete User pk db)) ->
  In (r_model p) [Photo; Review; FavoriteAdvertisement; Notification] ->
  r_data p !! "advertisement" <> Some (PyInt (r_pk a)).
Proof.
  intros Hreach Ha Hm Hu Hp Hmp Hv.
  assert (In (ForeignKey "advertisement" Advertisement CASCADE) (fields (r_model p)))
    as Hf by (destruct Hmp as [<-|[<-|[<-|[<-|[]]]]]; simpl; auto).
  pose proof (reachable_step db (OpDelete User pk) Hreach) as Hreach'.
  simpl in Hreach'.
  pose proof (reachable_no_dangling _ Hreach' p _ Hp Hf) as Hok.
  unfold fk_ok in Hok. simpl in Hok. rewrite Hv in Hok.
  apply has_row_In in Hok as (a' & Ha' & Hk').
  assert (a' = a) as ->.
  { apply (same_key_same_row (rows db)).
    - by apply reachable_keys_unique.
    - exact (delete_rows_subset _ _ _ _ Ha').
    - exact Ha.
    - rewrite Hk'. unfold row_key. by rewrite Hm. }
  destruct (delete_no_referrer db User pk) as [_ H].
  apply (H a (ForeignKey "user" User CASCADE) CASCADE false Ha'); auto.
  rewrite Hm. simpl. auto.
Qed.

(** X15 (e-mail is an identity): in every reachable state two stored
    accounts with the same e-mail are one and the same record. *)
Theorem accounts_have_distinct_emails db r1 r2 e :
  reachable db ->
  In r1 (rows db) -> In r2 (rows db) ->
  r_model r1 = User -> r_model r2 = User ->
  r_data r1 !! "email" = Some e -> r_data r2 !! "email" = Some e ->
  r1 = r2.
Proof.
  intros Hreach H1 H2 Hm1 Hm2 He1 He2.
  apply (same_key_same_row (rows db)); auto using reachable_keys_unique.
  unfold row_key. rewrite Hm1, Hm2. f_equal.
  apply (reachable_unique_values db Hreach r1 r2
           (with_unique (EmailField "email")) e); auto; try congruence.
  rewrite Hm1. simpl. auto 12.
Qed.

(** X16 (one agent per account): in every reachable state two Agent
    records of the same user are one and the same record. *)
Theorem an_account_has_one_agent db r1 r2 u :
  reachable db ->
  In r1 (rows db) -> In r2 (rows db) ->
  r_model r1 = Agent -> r_model r2 = Agent ->
  r_data r1 !! "user" = Some u -> r_data r2 !! "user" = Some u ->
  r1 = r2.
Proof.
  intros Hreach H1 H2 Hm1 Hm2 He1 He2.
  apply (same_key_same_row (rows db)); auto using reachable_keys_unique.
  unfold row_key. rewrite Hm1, Hm2. f_equal.
  apply (reachable_unique_values db Hreach r1 r2
           (OneToOneField "user" User CASCADE) u); auto; try congruence.
  rewrite Hm1. simpl. auto.
Qed.

End RelationsHold.

(** ** What a write requires *)

Section Requirements.

Lemma relation_not_stamped m f to policy o :
  In f (fields m) -> f_kind f = KForeignKey to policy o -> f_auto_now_add f = false.
Proof.
  destruct m; simpl; intros H E;
    repeat (destruct H as [<-|H]; [simpl in E; first [discriminate | reflexivity]|]);
    destruct H.
Qed.

Lemma column_check_ext rs f (inst inst' : instance) :
  inst' !! f_name f = inst !! f_name f ->
  not_null_ok f inst' && fk_ok rs f inst' = not_null_ok f inst && fk_ok rs f inst.
Proof. intros E. unfold not_null_ok, fk_ok. by rewrite E. Qed.

Lemma constraints_fail rs m pk inst f :
  In f (fields m) ->
  not_null_ok f inst && fk_ok rs f inst = false ->
  constraints_ok rs m pk inst = false.
Proof.
  intros Hf H. destruct (constraints_ok rs m pk inst) eqn:E; [|reflexivity].
  unfold constraints_ok in E. rewrite forallb_forall in E.
  specialize (E f Hf). apply andb_true_iff in E as [E _]. congruence.
Qed.

Lemma insert_row_refused m pk inst db :
  constraints_ok (rows db) m pk inst = false ->
  insert_row m pk inst db = (Raise IntegrityError, db).
Proof. intros H. unfold insert_row. by rewrite H, andb_false_r. Qed.

(** A column the caller controls that fails NOT NULL or FOREIGN KEY makes
    [save] refuse the write. *)
Lemma save_refuses now m inst db f :
  In f (fields m) -> f_auto_now_add f = false ->
  not_null_ok f inst && fk_ok (rows db) f inst = false ->
  exists e, save now m inst db = (Raise e, db).
Proof.
  intros Hf Ha Hbad.
  assert (forall i : instance, i !! f_name f = inst !! f_name f ->
            forall pk, insert_row m pk i db = (Raise IntegrityError, db)) as Hins.
  { intros i Hi pk. apply insert_row_refused.
    apply (constraints_fail _ _ _ _ f Hf). by rewrite (column_check_ext _ _ inst). }
  pose proof (pre_save_add_lookup now m inst (f_name f)
                (field_caller_set m f Hf Ha)) as Hpre.
  unfold save.
  destruct (default PyNone (inst !! "id")) as [| | pk | | |]; eauto.
  - rewrite Hins; eauto.
    rewrite lookup_insert_ne; [exact Hpre|].
    apply not_eq_sym. by eapply field_not_id.
  - destruct (has_row (rows db) m pk).
    + unfold update_row. rewrite (constraints_fail _ _ _ _ f Hf Hbad). eauto.
    + rewrite Hins; eauto.
Qed.

Lemma create_refuses now m kw db f :
  In f (fields m) -> f_auto_now_add f = false ->
  (forall inst : instance,
     inst !! f_name f = Some (default (get_default f) (kw !! f_name f)) ->
     not_null_ok f inst && fk_ok (rows db) f inst = false) ->
  exists e, create now m kw db = (Raise e, db).
Proof.
  intros Hf Ha Hbad. unfold create.
  destruct (model_init m kw) as [inst|e] eqn:E; [|eauto].
  destruct (save_insert_cases now m inst db) as [-> | ->]; [|eauto].
  apply (save_refuses now m inst db f Hf Ha). apply Hbad.
  by rewrite (model_init_lookup _ _ _ (f_name f) E), (get_field_of_field m f Hf).
Qed.

(** X17 (required columns): a column that is not nullable, has no default
    and is not stamped on insertion must be given: a [create] that leaves
    it out, or passes None, fails and writes nothing.  These are the price
    and the four relations of an Advertisement, the relations of Agent,
    Photo, Review, FavoriteAdvertisement and Notification, the rating of a
    Review, the order of a Photo and the three columns of Statistics. *)
Theorem create_requires_columns_without_default now m kw db f :
  In f (fields m) ->
  f_null f = false -> f_auto_now_add f = false -> get_default f = PyNone ->
  kw !! f_name f = None \/ kw !! f_name f = Some PyNone ->
  exists e, create now m kw db = (Raise e, db).
Proof.
  intros Hf Hn Ha Hd Hkw. apply (create_refuses now m kw db f Hf Ha).
  intros inst Hi. unfold not_null_ok. rewrite Hn, Hi, Hd.
  by destruct Hkw as [-> | ->].
Qed.

(** X18 (relations are checked on write): a [create] whose relation holds
    a key that no stored record of the target class has fails and writes
    nothing. *)
Theorem create_refuses_missing_target now m kw db f to policy o pk :
  In f (fields m) -> f_kind f = KForeignKey to policy o ->
  kw !! f_name f = Some (PyInt pk) ->
  has_row (rows db) to pk = false ->
  exists e, create now m kw db = (Raise e, db).
Proof.
  intros Hf Hk Hv Hrow.
  apply (create_refuses now m kw db f Hf (relation_not_stamped _ _ _ _ _ Hf Hk)).
  intros inst Hi. unfold fk_ok. rewrite Hk, Hi, Hv. simpl.
  rewrite Hrow. apply andb_false_r.
Qed.

End Requirements.

Section Repetition.

Lemma pre_save_add_cases now m inst k :
  pre_save_add now m inst !! k
  = if existsb (fun g => f_auto_now_add g && String.eqb (f_name g) k) (fields m)
    then Some (PyTime now) else inst !! k.
Proof.
  unfold pre_save_add. induction (fields m) as [|g fs IH]; simpl; [reflexivity|].
  destruct (f_auto_now_add g); simpl; [|exact IH].
  destruct (String.eqb_spec (f_name g) k) as [->|Hne]; simpl.
  - apply lookup_insert_eq.
  - by rewrite lookup_insert_ne.
Qed.

(** The checks a column passed once, it passes again at a later time and
    over more rows. *)
Lemma column_check_again rs rs' now now' m inst pk pk' f :
  In f (fields m) ->
  (forall t k, has_row rs t k = true -> has_row rs' t k = true) ->
  not_null_ok f (<["id" := PyInt pk]> (pre_save_add now m inst))
  && fk_ok rs f (<["id" := PyInt pk]> (pre_save_add now m inst)) = true ->
  not_null_ok f (<["id" := PyInt pk']> (pre_save_add now' m inst))
  && fk_ok rs' f (<["id" := PyInt pk']> (pre_save_add now' m inst)) = true.
Proof.
  intros Hf Hmono. unfold not_null_ok, fk_ok.
  rewrite !lookup_insert_ne by (apply not_eq_sym; by eapply field_not_id).
  rewrite !pre_save_add_cases.
  destruct (existsb _ (fields m)).
  - destruct (f_kind f); auto.
  - destruct (f_kind f); auto.
    destruct (inst !! f_name f) as [[| |k| | |]|]; auto.
    rewrite !andb_true_iff. intros [H1 H2]. auto.
Qed.

(** X19 (no uniqueness where none is declared): in a reachable state, a
    [create] on a class without a unique column that succeeded once
    succeeds again with the same keywords, storing a second record with
    the same caller-supplied columns.  So the same advertisement can be
    favourited twice by one user, two photos can share a display order,
    and two Statistics rows can carry one date. *)
Theorem create_can_be_repeated now now' m kw db u db' :
  reachable db ->
  forallb (fun f => negb (f_unique f)) (fields m) = true ->
  kw !! "id" = None ->
  create now m kw db = (Ok u, db') ->
  exists u' db'',
    create now' m kw db' = (Ok u', db'') /\
    rows db'' = rows db' ++ [mkRow m (next_pk db' m) u'] /\
    forall k, caller_set m k = true -> u' !! k = u !! k.
Proof.
  intros Hreach Hnu Hid H.
  assert (reachable db') as Hreach'.
  { pose proof (reachable_step db (OpCreate now m kw) Hreach) as Hr.
    simpl in Hr. by rewrite H in Hr. }
  apply create_new_inv in H as (inst & Einit & -> & _ & Hc & Hdb'); [|exact Hid].
  set (pk := next_pk db m) in *. set (pk' := next_pk db' m).
  set (u' := <["id" := PyInt pk']> (pre_save_add now' m inst)).
  assert (has_row (rows db') m pk' = false) as Hfresh.
  { apply has_row_false. intros r Hr [= Em Ek].
    pose proof (reachable_sequences_ahead db' Hreach' r Hr) as Hlt.
    rewrite Em in Hlt. subst pk'. lia. }
  assert (constraints_ok (rows db') m pk' u' = true) as Hc'.
  { unfold constraints_ok in *. rewrite forallb_forall in *. intros f Hf.
    specialize (Hc f Hf). specialize (Hnu f Hf).
    apply andb_true_iff in Hc as [Hc _].
    apply andb_true_iff. split.
    - apply (column_check_again (rows db) (rows db') now now' m inst pk pk' f Hf);
        [|exact Hc].
      subst db'. simpl. intros t k. rewrite !has_row_In.
      intros (r & Hr & E). exists r. split; [apply in_or_app; by left|done].
    - unfold unique_ok. apply negb_true_iff in Hnu. by rewrite Hnu. }
  exists u', (mkDB (rows db' ++ [mkRow m pk' u']) (advance m (pk' + 1) db')).
  split; [|split; [reflexivity|]].
  - unfold create. rewrite Einit.
    rewrite save_insert_new by (by rewrite (model_init_id _ _ _ Einit), Hid).
    rewrite save_new by (by rewrite (model_init_id _ _ _ Einit), Hid).
    fold pk' u'. unfold insert_row. by rewrite Hfresh, Hc'.
  - intros k Hk. unfold u'.
    assert (k <> "id") as Hne.
    { unfold caller_set in Hk. apply andb_true_iff in Hk as [Hk _].
      intros ->. discriminate. }
    rewrite !lookup_insert_ne by done.
    by rewrite !pre_save_add_lookup.
Qed.

End Repetition.

(** ** Text columns *)

Section TextColumns.

(** The plain text columns of models.py are all declared the same way:
    [CharField(max_length=l)] and nothing else. *)
Lemma char_field_shape m f l :
  In f (fields m) -> f_kind f = KChar -> f_choices f = None ->
  f_max_length f = Some l -> f = CharField (f_name f) l.
Proof.
  destruct m; simpl; intros H Ek Ec El;
    repeat (destruct H as [<-|H];
            [simpl in *; first [discriminate | by injection El as <-]|]);
    destruct H.
Qed.

(** X20 (length limits): every [CharField] of the schema that has no
    choices list (names, phone number, address parts, titles, the type and
    status of a Notification, ...) accepts exactly the non-empty strings of
    at most [max_length] characters, counted as Python counts them: a
    Cyrillic letter is one character, though two bytes. *)
Theorem char_field_accepts_up_to_max_length m f l s :
  In f (fields m) -> f_kind f = KChar -> f_choices f = None ->
  f_max_length f = Some l ->
  is_ok (clean_field m (f_name f) (PyStr s)) = true <-> s <> "" /\ py_len s <= l.
Proof.
  intros Hf Ek Ec El. unfold clean_field. rewrite (get_field_of_field m f Hf).
  rewrite (char_field_shape m f l Hf Ek Ec El).
  unfold clean, validate, run_validators. simpl.
  destruct (String.eqb_spec s "") as [->|Hne]; simpl.
  - split; [discriminate|]. by intros [[] _].
  - destruct (Z.ltb_spec l (py_len s)); simpl; split;
      first [discriminate | reflexivity | intros [_ ?]; lia | auto].
Qed.

End TextColumns.

Lemma char_field_accepts_up_to_max_length_witness :
  In (CharField "house" 15) (fields Location) /\
  py_len "дом пятнадцать" = 14 /\
  is_ok (clean_field Location "house" (PyStr "дом пятнадцать")) = true.
Proof.
  assert (In (CharField "house" 15) (fields Location)) as H by (simpl; auto 12).
  split; [exact H|]. split; [reflexivity|].
  apply (char_field_accepts_up_to_max_length Location (CharField "house" 15) 15
           "дом пятнадцать" H eq_refl eq_refl eq_refl).
  split; [discriminate|]. vm_compute. discriminate.
Defined.

(** The limit counts characters: sixteen of them are one too many for the
    phone number, and eight Cyrillic letters fit a column of ten although
    they take sixteen bytes. *)
Example phone_number_of_sixteen_characters :
  clean_field User "phone_number" (PyStr "+7 900 000-00-00")
  = Raise (ValidationError ["max_length"]).
Proof. reflexivity. Qed.

Example notification_status_in_cyrillic :
  String.length "доставлено" = 20%nat /\
  clean_field Notification "status" (PyStr "доставлено") = Ok (PyStr "доставлено").
Proof. split; reflexivity. Qed.

(** ** More on price formatting *)

Section PriceEdges.

Lemma ge_int_cents (c n : Z) :
  ge_int (mkDec false c (-2)) n = (n * 100 <=? c).
Proof. unfold ge_int, num, den, signed_int. simpl. by rewrite Z.mul_1_r. Qed.

Lemma format_2f_cents (c : Z) : format_2f (mkDec false c (-2)) = render2 c.
Proof. rewrite format_2f_nonneg. unfold rescale. simpl. by rewrite Z.mul_1_r. Qed.

(** X21 (below a thousand): a non-negative price below 1,000 held with two
    decimal places, as the column holds it, is printed digit for digit,
    without scaling or rounding: the text before " руб." is an integer
    literal, a point and two digits, and reads back as exactly the
    hundredths stored. *)
Theorem formatted_price_below_thousand_is_exact (c : Z) :
  0 <= c < 100000 ->
  exists s, formatted_price (mkDec false c (-2)) = s +:+ " руб." /\
            read_hundredths s = Some c.
Proof.
  intros Hc. exists (render2 c). split; [|apply read_render2; lia].
  unfold formatted_price. rewrite !ge_int_cents.
  destruct (Z.leb_spec (1000000 * 100) c); [lia|].
  destruct (Z.leb_spec (1000 * 100) c); [lia|].
  by rewrite format_2f_cents.
Qed.

(** X22 (just below a million): the thousands branch rounds after it was
    chosen, so a price from 999,995.00 up to 999,999.99 is printed as
    "1000.00 тыс", not as a million. *)
Theorem formatted_price_just_below_a_million (c : Z) :
  99999500 <= c < 100000000 ->
  formatted_price (mkDec false c (-2)) = "1000.00 тыс".
Proof.
  intros Hc. unfold formatted_price. rewrite !ge_int_cents.
  destruct (Z.leb_spec (1000000 * 100) c); [lia|].
  destruct (Z.leb_spec (1000 * 100) c); [|lia].
  unfold truediv_pow10. simpl.
  rewrite fix_prec_id by (simpl; unfold prec; lia).
  rewrite format_2f_nonneg. unfold rescale. simpl.
  change (-2 - (-2 - 3)) with 3.
  assert (round_half_even c 3 = 100000) as ->; [|reflexivity].
  unfold round_half_even. change (10 ^ 3) with 1000.
  pose proof (Z.div_mod c 1000 ltac:(lia)) as Hdm.
  pose proof (Z.mod_pos_bound c 1000 ltac:(lia)) as Hr.
  assert (c / 1000 = 99999) as Hq by lia. rewrite Hq in *.
  destruct (Z.ltb_spec 1000 (2 * (c mod 1000))); simpl; [reflexivity|].
  destruct (Z.eqb_spec (2 * (c mod 1000)) 1000); simpl; [reflexivity|lia].
Qed.

(** The magnitude of a negative decimal is the decimal without its sign. *)
Lemma value_opp (c e : Z) : (- value (mkDec true c e))%Q = value (mkDec false c e).
Proof.
  unfold value, num, den, signed_int, Qopp. simpl. f_equal. ring.
Qed.

Lemma format_2f_negative (c e : Z) :
  format_2f (mkDec true c e) = "-" +:+ format_2f (mkDec false c e).
Proof. unfold format_2f, rescale. simpl. by destruct (_ <=? _). Qed.

(** X23 (negative prices): a negative price fails both comparisons, so it
    is never abbreviated: however large, it is printed as a minus sign,
    its own magnitude written with two decimals (not a thousandth or a
    millionth of it), and " руб.". *)
Theorem formatted_price_negative_is_unscaled (p : Dec) :
  d_sign p = true -> 0 < d_int p ->
  exists s, formatted_price p = "-" +:+ s +:+ " руб." /\
            written_with_two_decimals (- value p) s.
Proof.
  destruct p as [sg c e]. simpl. intros -> Hc.
  assert (forall n, 0 < n -> ge_int (mkDec true c e) n = false) as Hge.
  { intros n Hn. unfold ge_int, num, den, signed_int. simpl.
    apply Z.leb_gt.
    pose proof (pow10_pos (Z.max e 0) ltac:(lia)).
    pose proof (pow10_pos (Z.max (- e) 0) ltac:(lia)). nia. }
  exists (format_2f (mkDec false c e)). split.
  - unfold formatted_price. rewrite !Hge by lia.
    by rewrite format_2f_negative.
  - rewrite value_opp. apply format_undivided. lia.
Qed.

End PriceEdges.

Lemma formatted_price_below_thousand_is_exact_witness :
  0 <= 99999 < 100000 /\
  exists s, formatted_price (mkDec false 99999 (-2)) = s +:+ " руб." /\
            read_hundredths s = Some 99999.
Proof.
  split; [lia|]. apply formatted_price_below_thousand_is_exact. lia.
Defined.

Example formatted_price_999_99 :
  formatted_price (mkDec false 99999 (-2)) = "999.99 руб.".
Proof. reflexivity. Qed.

Lemma formatted_price_just_below_a_million_witness :
  99999500 <= 99999500 < 100000000 /\
  formatted_price (mkDec false 99999500 (-2)) = "1000.00 тыс".
Proof.
  split; [lia|]. apply formatted_price_just_below_a_million. lia.
Defined.

Lemma formatted_price_negative_is_unscaled_witness :
  d_sign (mkDec true 500000000 (-2)) = true /\
  0 < d_int (mkDec true 500000000 (-2)) /\
  exists s, formatted_price (mkDec true 500000000 (-2)) = "-" +:+ s +:+ " руб." /\
            written_with_two_decimals (- value (mkDec true 500000000 (-2))) s.
Proof.
  split; [reflexivity|]. split; [reflexivity|].
  apply formatted_price_negative_is_unscaled; reflexivity.
Defined.

Example formatted_price_negative_five_million :
  formatted_price (mkDec true 500000000 (-2)) = "-5000000.00 руб.".
Proof. reflexivity. Qed.

Section Representation.

Lemma pow10_add (a b : Z) : 0 <= a -> 0 <= b -> 10 ^ (a + b) = 10 ^ a * 10 ^ b.
Proof. intros. by apply Z.pow_add_r. Qed.

Lemma ge_int_shift (sg : bool) (c e j n : Z) :
  0 <= j ->
  ge_int (mkDec sg (c * 10 ^ j) (e - j)) n = ge_int (mkDec sg c e) n.
Proof.
  intros Hj. unfold ge_int, num, den, signed_int. simpl.
  set (s := if sg then - (c * 10 ^ j) else c * 10 ^ j).
  set (s0 := if sg then - c else c).
  assert (s = s0 * 10 ^ j) as -> by (subst s s0; destruct sg; ring).
  set (a := Z.max e 0). set (b := Z.max (- e) 0).
  set (a' := Z.max (e - j) 0). set (b' := Z.max (- (e - j)) 0).
  pose proof (pow10_pos b ltac:(lia)) as HB.
  pose proof (pow10_pos b' ltac:(lia)) as HB'.
  assert (10 ^ j * 10 ^ a' * 10 ^ b = 10 ^ a * 10 ^ b') as E.
  { rewrite <- !pow10_add by lia. f_equal. lia. }
  apply eq_true_iff_eq. rewrite !Z.leb_le.
  rewrite (Z.mul_le_mono_pos_r (n * 10 ^ b') _ (10 ^ b)) by exact HB.
  rewrite (Z.mul_le_mono_pos_r (n * 10 ^ b) _ (10 ^ b')) by exact HB'.
  replace (s0 * 10 ^ j * 10 ^ a' * 10 ^ b) with (s0 * (10 ^ j * 10 ^ a' * 10 ^ b))
    by ring.
  rewrite E. split; intros H; nia.
Qed.

Lemma round_half_even_exact (c j k : Z) :
  0 <= k <= j -> round_half_even (c * 10 ^ j) k = c * 10 ^ (j - k).
Proof.
  intros Hk. unfold round_half_even.
  pose proof (pow10_pos k ltac:(lia)) as HK.
  assert (c * 10 ^ j = c * 10 ^ (j - k) * 10 ^ k) as ->.
  { rewrite <- Z.mul_assoc, <- pow10_add by lia. do 2 f_equal. lia. }
  rewrite Z.div_mul, Z.mod_mul by lia.
  destruct (Z.ltb_spec (10 ^ k) (2 * 0)); [lia|].
  destruct (Z.eqb_spec (2 * 0) (10 ^ k)); [lia|reflexivity].
Qed.

Lemma round_half_even_shift (c j k : Z) :
  0 <= c -> 0 <= j -> 0 <= k ->
  round_half_even (c * 10 ^ j) (k + j) = round_half_even c k.
Proof.
  intros Hc Hj Hk. unfold round_half_even.
  pose proof (pow10_pos k Hk) as HK. pose proof (pow10_pos j Hj) as HJ.
  rewrite pow10_add by lia.
  rewrite Z.div_mul_cancel_r, Z.mul_mod_distr_r by lia.
  set (q := c / 10 ^ k). set (r := c mod 10 ^ k).
  set (P := 10 ^ k) in *. set (J := 10 ^ j) in *.
  assert ((P * J <? 2 * (r * J)) = (P <? 2 * r)) as ->.
  { destruct (Z.ltb_spec (P * J) (2 * (r * J))), (Z.ltb_spec P (2 * r));
      auto; nia. }
  assert ((2 * (r * J) =? P * J) = (2 * r =? P)) as ->; [|reflexivity].
  destruct (Z.eqb_spec (2 * (r * J)) (P * J)), (Z.eqb_spec (2 * r) P);
    auto; nia.
Qed.

Lemma rescale_shift (sg : bool) (c e j t : Z) :
  0 <= c -> 0 <= j ->
  rescale (mkDec sg (c * 10 ^ j) (e - j)) t = rescale (mkDec sg c e) t.
Proof.
  intros Hc Hj. unfold rescale. simpl.
  destruct (Z.leb_spec t (e - j)), (Z.leb_spec t e); try lia; f_equal.
  - rewrite <- Z.mul_assoc, <- pow10_add by lia. do 2 f_equal. lia.
  - rewrite round_half_even_exact by lia. do 2 f_equal. lia.
  - replace (t - (e - j)) with ((t - e) + j) by lia.
    apply round_half_even_shift; lia.
Qed.

Lemma format_2f_shift (sg : bool) (c e j : Z) :
  0 <= c -> 0 <= j ->
  format_2f (mkDec sg (c * 10 ^ j) (e - j)) = format_2f (mkDec sg c e).
Proof. intros Hc Hj. unfold format_2f. by rewrite rescale_shift. Qed.

(** X24 (trailing zeros): the text does not depend on how the decimal is
    held: a coefficient with [j] more trailing zeros and an exponent lower
    by [j] prints the same (the same number, say 1500 and 1500.00), as long
    as the coefficient fits the 28-digit context. *)
Theorem formatted_price_ignores_trailing_zeros (sg : bool) (c e j : Z) :
  0 <= c -> 0 <= j -> c * 10 ^ j < 10 ^ prec ->
  formatted_price (mkDec sg (c * 10 ^ j) (e - j)) = formatted_price (mkDec sg c e).
Proof.
  intros Hc Hj Hlt.
  pose proof (pow10_pos j Hj) as HJ.
  assert (c < 10 ^ prec) as Hc' by nia.
  assert (forall k, format_2f (truediv_pow10 (mkDec sg (c * 10 ^ j) (e - j)) k)
                    = format_2f (truediv_pow10 (mkDec sg c e) k)) as Hdiv.
  { intros k. unfold truediv_pow10. simpl.
    rewrite !fix_prec_id by (simpl; lia).
    replace (e - j - k) with ((e - k) - j) by lia. by apply format_2f_shift. }
  unfold formatted_price.
  rewrite !ge_int_shift, !Hdiv, format_2f_shift by lia. reflexivity.
Qed.

End Representation.

Lemma formatted_price_ignores_trailing_zeros_witness :
  0 <= 1500 /\ 0 <= 2 /\ 1500 * 10 ^ 2 < 10 ^ prec /\
  formatted_price (mkDec false (1500 * 10 ^ 2) (0 - 2))
  = formatted_price (mkDec false 1500 0).
Proof.
  split; [lia|]. split; [lia|]. split; [reflexivity|].
  apply formatted_price_ignores_trailing_zeros; [lia|lia|reflexivity].
Defined.

(** ** Worked instances *)

Import Scenario.

Lemma row_at_In i db : (i < length (rows db))%nat -> In (row_at i db) (rows db).
Proof. intros H. by apply nth_In. Qed.

Lemma market_reachable : reachable market_db.
Proof. apply run_reachable. constructor. Qed.

Lemma create_user_stores_normalized_email_witness :
  exists u db',
    create_user Sample.normalize Sample.encode "salt" 30
      (PyStr "carol@example.org") (PyStr "secret") Sample.ann market_db
    = (Ok u, db') /\
    exists s, PyStr "carol@example.org" = PyStr s /\ s <> "" /\
              Sample.ann !! "email" = None /\
              u !! "email" = Some (PyStr (Sample.normalize s)).
Proof.
  destruct (ok_split (create_user Sample.normalize Sample.encode "salt" 30
      (PyStr "carol@example.org") (PyStr "secret") Sample.ann market_db))
    as (u & db' & E); [vm_compute; reflexivity|].
  exists u, db'. split; [exact E|].
  exact (create_user_stores_normalized_email _ _ _ _ _ _ _ _ _ _ E).
Defined.

Lemma create_user_default_flags_witness :
  exists u db',
    create_user Sample.normalize Sample.encode "salt" 30
      (PyStr "carol@example.org") (PyStr "secret")
      (<["is_agent" := PyBool true]> Sample.ann) market_db
    = (Ok u, db') /\
    u !! "is_active" = Some (PyBool true) /\
    u !! "is_staff" = Some (PyBool false) /\
    u !! "is_agent" = Some (PyBool true) /\
    u !! "is_superuser" = Some (PyBool false).
Proof.
  destruct (ok_split (create_user Sample.normalize Sample.encode "salt" 30
      (PyStr "carol@example.org") (PyStr "secret")
      (<["is_agent" := PyBool true]> Sample.ann) market_db))
    as (u & db' & E); [vm_compute; reflexivity|].
  exists u, db'. split; [exact E|].
  exact (create_user_default_flags _ _ _ _ _ _ _ _ _ _ E).
Defined.

Lemma create_stamps_auto_now_add_witness :
  Sample.ad_kwargs !! "id" = None /\
  In (with_auto_now_add (DateTimeField "date_posted")) (fields Advertisement) /\
  exists u db',
    create 20 Advertisement Sample.ad_kwargs Sample.base_db = (Ok u, db') /\
    u !! "date_posted" = Some (PyTime 20).
Proof.
  assert (In (with_auto_now_add (DateTimeField "date_posted"))
             (fields Advertisement)) as Hf by (simpl; auto 12).
  split; [reflexivity|]. split; [exact Hf|].
  destruct (ok_split (create 20 Advertisement Sample.ad_kwargs Sample.base_db))
    as (u & db' & E); [vm_compute; reflexivity|].
  exists u, db'. split; [exact E|].
  exact (create_stamps_auto_now_add 20 Advertisement Sample.ad_kwargs
           Sample.base_db u db' _ eq_refl E Hf eq_refl).
Defined.

Lemma create_user_adds_one_account_witness :
  Sample.ann !! "id" = None /\
  match create_user Sample.normalize Sample.encode "salt" 30
          (PyStr "carol@example.org") (PyStr "secret") Sample.ann market_db with
  | (Ok u, db') =>
      u !! "id" = Some (PyInt (next_pk market_db User)) /\
      rows db' = rows market_db ++ [mkRow User (next_pk market_db User) u] /\
      has_row (rows market_db) User (next_pk market_db User) = false
  | (Raise _, db') => db' = market_db
  end.
Proof.
  split; [reflexivity|].
  exact (create_user_adds_one_account Sample.normalize Sample.encode "salt" 30
           (PyStr "carol@example.org") (PyStr "secret") Sample.ann market_db
           eq_refl).
Defined.

Lemma create_user_stamps_date_joined_witness :
  (<["date_joined" := PyTime 1]> Sample.ann) !! "id" = None /\
  exists u db',
    create_user Sample.normalize Sample.encode "salt" 30
      (PyStr "carol@example.org") (PyStr "secret")
      (<["date_joined" := PyTime 1]> Sample.ann) market_db = (Ok u, db') /\
    u !! "date_joined" = Some (PyTime 30).
Proof.
  split; [reflexivity|].
  destruct (ok_split (create_user Sample.normalize Sample.encode "salt" 30
      (PyStr "carol@example.org") (PyStr "secret")
      (<["date_joined" := PyTime 1]> Sample.ann) market_db))
    as (u & db' & E); [vm_compute; reflexivity|].
  exists u, db'. split; [exact E|].
  exact (create_user_stamps_date_joined Sample.normalize Sample.encode "salt" 30
           (PyStr "carol@example.org") (PyStr "secret")
           (<["date_joined" := PyTime 1]> Sample.ann) market_db u db' eq_refl E).
Defined.

Lemma create_user_argument_given_twice_witness :
  (<["email" := PyStr "other@example.org"]> Sample.ann) !! "email"
  = Some (PyStr "other@example.org") /\
  call_create_user Sample.normalize Sample.encode "salt" 30
    [PyStr ""; PyStr "secret"]
    (<["email" := PyStr "other@example.org"]> Sample.ann) market_db
  = (Raise TypeError, market_db).
Proof.
  split; [reflexivity|].
  apply (create_user_argument_given_twice Sample.normalize Sample.encode
           "salt" 30 (PyStr "") [PyStr "secret"] _ market_db
           (PyStr "other@example.org")).
  left. reflexivity.
Defined.

Lemma create_user_refuses_taken_email_witness :
  reachable market_db /\
  In (row_at 4 market_db) (rows market_db) /\
  r_model (row_at 4 market_db) = User /\
  r_data (row_at 4 market_db) !! "email"
  = Some (PyStr (Sample.normalize "bob@example.org")) /\
  Sample.ann !! "id" = None /\
  exists e,
    create_user Sample.normalize Sample.encode "salt" 30
      (PyStr "bob@example.org") (PyStr "secret") Sample.ann market_db
    = (Raise e, market_db).
Proof.
  assert (In (row_at 4 market_db) (rows market_db)) as Hin
    by (apply row_at_In; vm_compute; lia).
  assert (r_model (row_at 4 market_db) = User) as Hm by (vm_compute; reflexivity).
  assert (r_data (row_at 4 market_db) !! "email"
          = Some (PyStr (Sample.normalize "bob@example.org"))) as He
    by (vm_compute; reflexivity).
  split; [exact market_reachable|]. split; [exact Hin|]. split; [exact Hm|].
  split; [exact He|]. split; [reflexivity|].
  exact (create_user_refuses_taken_email Sample.normalize Sample.encode "salt" 30
           "bob@example.org" (PyStr "secret") Sample.ann market_db _
           market_reachable Hin Hm He eq_refl).
Defined.

Lemma every_relation_points_at_a_record_witness :
  reachable market_db /\
  In (row_at 6 market_db) (rows market_db) /\
  In (ForeignKey "user" User CASCADE) (fields (r_model (row_at 6 market_db))) /\
  exists pk, r_data (row_at 6 market_db) !! "user" = Some (PyInt pk) /\
             has_row (rows market_db) User pk = true.
Proof.
  assert (In (row_at 6 market_db) (rows market_db)) as Hin
    by (apply row_at_In; vm_compute; lia).
  assert (In (ForeignKey "user" User CASCADE)
             (fields (r_model (row_at 6 market_db)))) as Hf
    by (replace (r_model (row_at 6 market_db)) with Advertisement
          by (vm_compute; reflexivity); simpl; auto 12).
  split; [exact market_reachable|]. split; [exact Hin|]. split; [exact Hf|].
  exact (every_relation_points_at_a_record market_db (row_at 6 market_db)
           (ForeignKey "user" User CASCADE) User CASCADE false
           market_reachable Hin Hf eq_refl).
Defined.

Lemma delete_unreferenced_removes_one_row_witness :
  is_referenced Photo = false /\
  rows (delete Photo 1 market_db)
  = List.filter (fun r => negb (is_row Photo 1 r)) (rows market_db).
Proof.
  split; [reflexivity|].
  exact (delete_unreferenced_removes_one_row market_db Photo 1 eq_refl).
Defined.

Lemma delete_removes_the_record_and_its_referrers_witness :
  referrers_are_leaves Advertisement = true /\
  rows (delete Advertisement 1 market_db)
  = List.filter (fun r => negb (is_row Advertisement 1 r) &&
                          negb (cascades_to [(Advertisement, 1)] r))
      (rows market_db).
Proof.
  split; [reflexivity|].
  exact (delete_removes_the_record_and_its_referrers market_db Advertisement 1
           eq_refl).
Defined.

Lemma delete_keeps_records_without_relations_witness :
  In (row_at 4 market_db) (rows market_db) /\
  has_relation (r_model (row_at 4 market_db)) = false /\
  row_key (row_at 4 market_db) <> (User, 1) /\
  In (row_at 4 market_db) (rows (delete User 1 market_db)).
Proof.
  assert (In (row_at 4 market_db) (rows market_db)) as Hin
    by (apply row_at_In; vm_compute; lia).
  assert (has_relation (r_model (row_at 4 market_db)) = false) as Hr
    by (vm_compute; reflexivity).
  assert (row_key (row_at 4 market_db) <> (User, 1)) as Hk
    by (vm_compute; discriminate).
  split; [exact Hin|]. split; [exact Hr|]. split; [exact Hk|].
  exact (delete_keeps_records_without_relations market_db User 1 _ Hin Hr Hk).
Defined.

Lemma other_tables_leave_agencies_alone_witness :
  op_model (OpDelete User 1) <> Agency /\
  In (row_at 10 market_db) (rows market_db) /\
  r_model (row_at 10 market_db) = Agency /\
  In (row_at 10 market_db) (rows (step market_db (OpDelete User 1))).
Proof.
  assert (In (row_at 10 market_db) (rows market_db)) as Hin
    by (apply row_at_In; vm_compute; lia).
  assert (r_model (row_at 10 market_db) = Agency) as Hm
    by (vm_compute; reflexivity).
  split; [discriminate|]. split; [exact Hin|]. split; [exact Hm|].
  apply (other_tables_leave_agencies_alone market_db (OpDelete User 1) _);
    [discriminate|exact Hin|exact Hm].
Defined.

Lemma delete_user_reaches_through_advertisements_witness :
  reachable market_db /\
  In (row_at 5 market_db) (rows market_db) /\
  r_model (row_at 5 market_db) = Advertisement /\
  r_data (row_at 5 market_db) !! "user" = Some (PyInt 1) /\
  In (row_at 5 (delete User 1 market_db)) (rows (delete User 1 market_db)) /\
  In (r_model (row_at 5 (delete User 1 market_db)))
     [Photo; Review; FavoriteAdvertisement; Notification] /\
  r_data (row_at 5 (delete User 1 market_db)) !! "advertisement"
  <> Some (PyInt (r_pk (row_at 5 market_db))).
Proof.
  assert (In (row_at 5 market_db) (rows market_db)) as Ha
    by (apply row_at_In; vm_compute; lia).
  assert (r_model (row_at 5 market_db) = Advertisement) as Hm
    by (vm_compute; reflexivity).
  assert (r_data (row_at 5 market_db) !! "user" = Some (PyInt 1)) as Hu
    by (vm_compute; reflexivity).
  assert (In (row_at 5 (delete User 1 market_db)) (rows (delete User 1 market_db)))
    as Hp by (apply row_at_In; vm_compute; lia).
  assert (In (r_model (row_at 5 (delete User 1 market_db)))
             [Photo; Review; FavoriteAdvertisement; Notification]) as Hmp
    by (replace (r_model (row_at 5 (delete User 1 market_db))) with Photo
          by (vm_compute; reflexivity); simpl; auto).
  split; [exact market_reachable|]. split; [exact Ha|]. split; [exact Hm|].
  split; [exact Hu|]. split; [exact Hp|]. split; [exact Hmp|].
  exact (delete_user_reaches_through_advertisements market_db 1 _ _
           market_reachable Ha Hm Hu Hp Hmp).
Defined.

Lemma accounts_have_distinct_emails_witness :
  reachable market_db /\
  In (row_at 0 market_db) (rows market_db) /\
  r_model (row_at 0 market_db) = User /\
  r_data (row_at 0 market_db) !! "email" = Some (PyStr "ann@example.org") /\
  forall r, In r (rows market_db) -> r_model r = User ->
            r_data r !! "email" = Some (PyStr "ann@example.org") ->
            row_at 0 market_db = r.
Proof.
  assert (In (row_at 0 market_db) (rows market_db)) as Hin
    by (apply row_at_In; vm_compute; lia).
  assert (r_model (row_at 0 market_db) = User) as Hm by (vm_compute; reflexivity).
  assert (r_data (row_at 0 market_db) !! "email" = Some (PyStr "ann@example.org"))
    as He by (vm_compute; reflexivity).
  split; [exact market_reachable|]. split; [exact Hin|]. split; [exact Hm|].
  split; [exact He|]. intros r Hr Hmr Her.
  exact (accounts_have_distinct_emails market_db _ r _ market_reachable
           Hin Hr Hm Hmr He Her).
Defined.

Lemma an_account_has_one_agent_witness :
  reachable market_db /\
  In (row_at 11 market_db) (rows market_db) /\
  r_model (row_at 11 market_db) = Agent /\
  r_data (row_at 11 market_db) !! "user" = Some (PyInt 1) /\
  forall r, In r (rows market_db) -> r_model r = Agent ->
            r_data r !! "user" = Some (PyInt 1) ->
            row_at 11 market_db = r.
Proof.
  assert (In (row_at 11 market_db) (rows market_db)) as Hin
    by (apply row_at_In; vm_compute; lia).
  assert (r_model (row_at 11 market_db) = Agent) as Hm by (vm_compute; reflexivity).
  assert (r_data (row_at 11 market_db) !! "user" = Some (PyInt 1))
    as He by (vm_compute; reflexivity).
  split; [exact market_reachable|]. split; [exact Hin|]. split; [exact Hm|].
  split; [exact He|]. intros r Hr Hmr Her.
  exact (an_account_has_one_agent market_db _ r _ market_reachable
           Hin Hr Hm Hmr He Her).
Defined.

Lemma create_requires_columns_without_default_witness :
  In (DecimalField "price" 20 2) (fields Advertisement) /\
  unpriced_kwargs !! "price" = None /\
  exists e, create 30 Advertisement unpriced_kwargs market_db = (Raise e, market_db).
Proof.
  assert (In (DecimalField "price" 20 2) (fields Advertisement)) as Hf
    by (simpl; auto 12).
  split; [exact Hf|]. split; [reflexivity|].
  exact (create_requires_columns_without_default 30 Advertisement unpriced_kwargs
           market_db (DecimalField "price" 20 2) Hf eq_refl eq_refl eq_refl
           (or_introl eq_refl)).
Defined.

Lemma create_refuses_missing_target_witness :
  In (ForeignKey "advertisement" Advertisement CASCADE) (fields Photo) /\
  photo_of 7 !! "advertisement" = Some (PyInt 7) /\
  has_row (rows market_db) Advertisement 7 = false /\
  exists e, create 30 Photo (photo_of 7) market_db = (Raise e, market_db).
Proof.
  assert (In (ForeignKey "advertisement" Advertisement CASCADE) (fields Photo))
    as Hf by (simpl; auto).
  assert (has_row (rows market_db) Advertisement 7 = false) as Hr
    by (vm_compute; reflexivity).
  split; [exact Hf|]. split; [reflexivity|]. split; [exact Hr|].
  exact (create_refuses_missing_target 30 Photo (photo_of 7) market_db
           (ForeignKey "advertisement" Advertisement CASCADE)
           Advertisement CASCADE false 7 Hf eq_refl eq_refl Hr).
Defined.

Lemma create_can_be_repeated_witness :
  reachable market_db /\
  forallb (fun f => negb (f_unique f)) (fields FavoriteAdvertisement) = true /\
  favorite_kwargs !! "id" = None /\
  exists u db',
    create 30 FavoriteAdvertisement favorite_kwargs market_db = (Ok u, db') /\
    exists u' db'',
      create 31 FavoriteAdvertisement favorite_kwargs db' = (Ok u', db'') /\
      rows db'' = rows db' ++ [mkRow FavoriteAdvertisement
                                 (next_pk db' FavoriteAdvertisement) u'] /\
      forall k, caller_set FavoriteAdvertisement k = true -> u' !! k = u !! k.
Proof.
  split; [exact market_reachable|]. split; [reflexivity|]. split; [reflexivity|].
  destruct (ok_split (create 30 FavoriteAdvertisement favorite_kwargs market_db))
    as (u & db' & E); [vm_compute; reflexivity|].
  exists u, db'. split; [exact E|].
  exact (create_can_be_repeated 30 31 FavoriteAdvertisement favorite_kwargs
           market_db u db' market_reachable eq_refl eq_refl E).
Defined.
